(** * interactive_conditional_samples.py: the quote-sampling front end

    A shallow embedding of [src/interactive_conditional_samples.py]:
    the quote filter [find_quotes], the batching loop [get_batches] and the
    driver [interact_model], followed by the properties established for them.

    Python [str] values are modelled as [string]; Python [int]s as [Z];
    exceptions as values of [exn]; console, network and sampler activity as
    a chronological [trace] of events carried by the [World]. *)

From Stdlib Require Import ZArith QArith List String Ascii Bool Arith Lia.
Import ListNotations.

Local Open Scope string_scope.
Local Open Scope list_scope.
Local Close Scope Q_scope.

(* ===================================================================== *)
(** ** Python string primitives used by the program *)
(* ===================================================================== *)

Module PyStr.

(** The characters the source spells with escapes. *)
Definition nl : ascii := "010"%char.
Definition dquote : ascii := "034"%char.

(** ['\n\n'], the separator handed to [str.split]. *)
Definition blank_line : string := String nl (String nl "").

(** ['"'] and ['" - Alan Watts'], the two literals of the filter. *)
Definition quote_mark : string := String dquote "".
Definition watts_suffix : string := String dquote " - Alan Watts".

(** [s.startswith(p)]. *)
Definition startswith (s p : string) : bool := String.prefix p s.

(** [s.endswith(p)]: some tail of [s] is [p]. *)
Fixpoint endswith (s p : string) : bool :=
  if String.eqb s p then true
  else match s with
       | EmptyString => false
       | String _ s' => endswith s' p
       end.

(** [s.split(sep)] for a non-empty [sep] (Python raises [ValueError] on an
    empty one; the program only ever passes ['\n\n']).  The scan goes left
    to right; at a position where [sep] matches, the current segment is
    closed and the [length sep] matched characters are skipped, so matches
    never overlap.  The result is the segment under construction together
    with the segments that follow it. *)
Fixpoint split_aux (sep : string) (skip : nat) (s : string)
  : string * list string :=
  match s with
  | EmptyString => (EmptyString, [])
  | String c s' =>
      match skip with
      | S k => split_aux sep k s'
      | O =>
          if String.prefix sep s
          then (EmptyString,
                let (h, t) := split_aux sep (String.length sep - 1) s' in
                h :: t)
          else let (h, t) := split_aux sep 0 s' in (String c h, t)
      end
  end.

Definition split (s sep : string) : list string :=
  let (h, t) := split_aux sep 0 s in h :: t.

(** [sep.join(parts)]. *)
Definition join (sep : string) (parts : list string) : string :=
  String.concat sep parts.

(** [sep in s]: [sep] occurs somewhere in [s]. *)
Fixpoint occurs (sep s : string) : bool :=
  String.prefix sep s
  || match s with
     | EmptyString => false
     | String _ s' => occurs sep s'
     end.

(** The last character of a string, if any. *)
Fixpoint last_char (s : string) : option ascii :=
  match s with
  | EmptyString => None
  | String c EmptyString => Some c
  | String _ s' => last_char s'
  end.

End PyStr.

(* ===================================================================== *)
(** ** [find_quotes] (lines 111-118) *)
(* ===================================================================== *)

(** The test of line 116. *)
Definition is_quote (potential_quote : string) : bool :=
  PyStr.startswith potential_quote PyStr.quote_mark
  && PyStr.endswith potential_quote PyStr.watts_suffix.

(** The [for] loop of lines 115-117, threading the list [quotes]. *)
Fixpoint find_quotes_loop (potential_quotes : list string) (quotes : list string)
  : list string :=
  match potential_quotes with
  | [] => quotes
  | potential_quote :: rest =>
      if is_quote potential_quote
      then find_quotes_loop rest (quotes ++ [potential_quote])
      else find_quotes_loop rest quotes
  end.

Definition find_quotes (batch : string) : list string :=
  let quotes := [] in
  let potential_quotes := PyStr.split batch PyStr.blank_line in
  find_quotes_loop potential_quotes quotes.

(** Lines 77-79 and 90-92: [quotes.extend(find_quotes(batch))] per batch. *)
Fixpoint extend_quotes (batches : list string) (quotes : list string)
  : list string :=
  match batches with
  | [] => quotes
  | batch :: rest => extend_quotes rest (quotes ++ find_quotes batch)
  end.

(* ===================================================================== *)
(** ** Exceptions, the world, and the monad of the program *)
(* ===================================================================== *)

(** The Python exceptions the modelled code can raise.  [ValueError] carries
    the format string of line 56 and the integer substituted into it. *)
Inductive exn : Type :=
| AssertionError
| ZeroDivisionError
| ValueError (msg : string) (arg : Z)
| NameError (name : string)
| UnboundLocalError (name : string)
| IndexError
| EOFError.

(** [UnboundLocalError] is a subclass of [NameError]: both report a name
    that is read before anything is bound to it. *)
Definition is_unbound_name (e : exn) : bool :=
  match e with
  | NameError _ | UnboundLocalError _ => true
  | _ => false
  end.

(** Observable activity, in the order it happens.  [EvGetBatches] is a
    ghost event recorded on entry to [get_batches]; [EvSessRun] is one
    invocation of the sampler through [sess.run]. *)
Inductive event : Type :=
| EvInput (prompt : string)
| EvPrint (text : string)
| EvHttpGet (url : string)
| EvGetBatches (prompt : string)
| EvSessRun (feed : list (list Z)).

Record World : Type := mkWorld {
  stdin : list string;     (* lines still to be typed; [] is end of input *)
  trace : list event       (* everything that has happened so far *)
}.

(** How a computation ends.  [OutOfFuel] belongs to the model only: it is
    what a loop yields when its iteration bound is used up. *)
Inductive result (A : Type) : Type :=
| Return (a : A)
| Raise (e : exn)
| OutOfFuel.
Arguments Return {A} a.
Arguments Raise {A} e.
Arguments OutOfFuel {A}.

Definition M (A : Type) : Type := World -> result A * World.

Definition ret {A} (a : A) : M A := fun w => (Return a, w).
Definition raise {A} (e : exn) : M A := fun w => (Raise e, w).
Definition out_of_fuel {A} : M A := fun w => (OutOfFuel, w).

Definition bind {A B} (m : M A) (k : A -> M B) : M B :=
  fun w =>
    match m w with
    | (Return a, w') => k a w'
    | (Raise e, w') => (Raise e, w')
    | (OutOfFuel, w') => (OutOfFuel, w')
    end.

Declare Scope py_scope.
Delimit Scope py_scope with py.
Notation "x <- c1 ;; c2" := (bind c1 (fun x => c2))
  (at level 61, c1 at next level, right associativity) : py_scope.
Notation "c1 ;; c2" := (bind c1 (fun _ => c2))
  (at level 61, right associativity) : py_scope.
Local Open Scope py_scope.

Definition emit (e : event) : M unit :=
  fun w => (Return tt, mkWorld (stdin w) (trace w ++ [e])).

(** [print(text)]. *)
Definition print (text : string) : M unit := emit (EvPrint text).

(** [input(prompt)]: shows the prompt, then takes the next line, or raises
    [EOFError] at end of input. *)
Definition input (prompt : string) : M string :=
  fun w =>
    let tr := trace w ++ [EvInput prompt] in
    match stdin w with
    | [] => (Raise EOFError, mkWorld [] tr)
    | line :: rest => (Return line, mkWorld rest tr)
    end.

(** [assert c]. *)
Definition assert_ (c : bool) : M unit :=
  if c then ret tt else raise AssertionError.

(** [a % b] and [a // b] on Python ints: floored, the sign of the result
    follows the divisor, and a zero divisor raises. *)
Definition py_mod (a b : Z) : M Z :=
  if (b =? 0)%Z then raise ZeroDivisionError else ret (a mod b)%Z.
Definition py_floordiv (a b : Z) : M Z :=
  if (b =? 0)%Z then raise ZeroDivisionError else ret (a / b)%Z.

(** [range(n)] for an int [n]: empty when [n <= 0]. *)
Definition range (n : Z) : list nat := seq 0 (Z.to_nat n).

(** Reading a local variable: [None] is a local that nothing has been
    assigned to yet. *)
Definition load_local {A} (name : string) (v : option A) : M A :=
  match v with
  | Some a => ret a
  | None => raise (UnboundLocalError name)
  end.

(** Reading a name that is not local to the function: it has to be bound in
    the module's namespace (built-in names included). *)
Definition load_global (globals : list string) (name : string) : M unit :=
  if existsb (String.eqb name) globals then ret tt else raise (NameError name).

(** The names bound at module scope when [interact_model] runs: the imports
    of lines 3-10 and the three functions.  No built-in is named [context]. *)
Definition module_globals : list string :=
  ["fire"; "json"; "os"; "requests"; "np"; "tf"; "model"; "sample"; "encoder";
   "interact_model"; "get_batches"; "find_quotes"].

(* ===================================================================== *)
(** ** Configuration and external collaborators *)
(* ===================================================================== *)

(** The keyword arguments of [interact_model] (lines 12-23). *)
Record Config : Type := mkConfig {
  model_name : string;
  seed : option Z;
  nsamples : Z;
  batch_size : option Z;
  length : option Z;
  temperature : Q;
  top_k : Z;
  top_p : Q;
  prompt_url : option string;
  author : string
}.

Definition default_config : Config :=
  {| model_name := "117M"; seed := None; nsamples := 1; batch_size := Some 1%Z;
     length := None; temperature := 1; top_k := 0; top_p := 0;
     prompt_url := None; author := "Alan Watts" |}.

(** The tensor built by [sample.sample_sequence] (lines 62-67). *)
Record SampleOp : Type := mkSampleOp {
  op_length : Z;
  op_batch_size : Z;
  op_temperature : Q;
  op_top_k : Z;
  op_top_p : Q;
  op_seed : option Z
}.

(** What the imported modules and the environment provide.  [sess_run op k
    feed] is the token matrix produced by the [k]-th sampler invocation of
    the session. *)
Record Collab : Type := mkCollab {
  enc_encode : string -> list Z;
  enc_decode : list Z -> string;
  hparams_n_ctx : string -> Z;
  requests_get_text : string -> string;
  sess_run : SampleOp -> nat -> list (list Z) -> list (list Z)
}.

Definition is_sess_run (e : event) : bool :=
  match e with EvSessRun _ => true | _ => false end.
Definition is_http_get (e : event) : bool :=
  match e with EvHttpGet _ => true | _ => false end.
Definition is_get_batches (e : event) : bool :=
  match e with EvGetBatches _ => true | _ => false end.
Definition is_input (e : event) : bool :=
  match e with EvInput _ => true | _ => false end.
Definition is_print (e : event) : bool :=
  match e with EvPrint _ => true | _ => false end.

Definition count (p : event -> bool) (w : World) : nat :=
  List.length (filter p (trace w)).

(** [sess.run(output, feed_dict={...})]. *)
Definition run_sampler (E : Collab) (output : SampleOp) (feed : list (list Z))
  : M (list (list Z)) :=
  fun w =>
    (Return (sess_run E output (count is_sess_run w) feed),
     mkWorld (stdin w) (trace w ++ [EvSessRun feed])).

(** [requests.get(url).text]. *)
Definition requests_get (E : Collab) (url : string) : M string :=
  emit (EvHttpGet url) ;; ret (requests_get_text E url).

(** [out[i]]. *)
Definition row {A} (out : list A) (i : nat) : M A :=
  match nth_error out i with
  | Some r => ret r
  | None => raise IndexError
  end.

(* ===================================================================== *)
(** ** [get_batches] (lines 96-109) *)
(* ===================================================================== *)

Section GetBatches.
Variable E : Collab.
Variable globals : list string.
Variable output : SampleOp.

(** Lines 104-107. *)
Fixpoint decode_loop (out : list (list Z)) (idxs : list nat)
         (generated : Z) (batches : list string) : M (Z * list string) :=
  match idxs with
  | [] => ret (generated, batches)
  | i :: rest =>
      let generated := (generated + 1)%Z in
      r <- row out i ;;
      let text := enc_decode E r in
      decode_loop out rest generated (batches ++ [text])
  end.

(** Lines 99-107, one iteration per round.  [batches] is a local that is
    unbound until the first round has run. *)
Fixpoint rounds_loop (rounds : nat) (context_tokens : list Z) (batch_size : Z)
         (generated : Z) (batches : option (list string))
  : M (Z * option (list string)) :=
  match rounds with
  | O => ret (generated, batches)
  | S rounds' =>
      load_global globals "context" ;;
      out <- run_sampler E output
               (map (fun _ => context_tokens) (range batch_size)) ;;
      let out := map (skipn (List.length context_tokens)) out in
      gb <- decode_loop out (range batch_size) generated [] ;;
      rounds_loop rounds' context_tokens batch_size (fst gb) (Some (snd gb))
  end.

Definition get_batches_in (prompt : string) (nsamples batch_size : Z)
  : M (list string) :=
  emit (EvGetBatches prompt) ;;
  let context_tokens := enc_encode E prompt in
  let generated := 0%Z in
  r <- py_floordiv nsamples batch_size ;;
  gb <- rounds_loop (Z.to_nat r) context_tokens batch_size generated None ;;
  load_local "batches" (snd gb).
End GetBatches.

(** The function as it stands in the module.  It is defined at module
    level, so the names it can read are its own locals, the module's
    globals and the built-ins; the local [context] of [interact_model]
    (line 59) is not among them. *)
Definition get_batches (E : Collab) (output : SampleOp)
           (prompt : string) (nsamples batch_size : Z) : M (list string) :=
  get_batches_in E module_globals output prompt nsamples batch_size.

(* ===================================================================== *)
(** ** [interact_model] (lines 12-94) *)
(* ===================================================================== *)

Definition banner : string := "Model prompt >>> ".
Definition empty_message : string := "Prompt should not be empty!".

(** Lines 44-45. *)
Definition resolve_batch_size (batch_size : option Z) : Z :=
  match batch_size with
  | None => 1%Z
  | Some b => b
  end.

(** Line 46. *)
Definition check_divisible (nsamples batch_size : Z) : M unit :=
  m <- py_mod nsamples batch_size ;;
  assert_ (m =? 0)%Z.

(** Lines 53-56. *)
Definition resolve_length (length : option Z) (n_ctx : Z) : M Z :=
  match length with
  | None => ret (n_ctx / 2)%Z
  | Some l =>
      if (l >? n_ctx)%Z
      then raise (ValueError "Can't get samples longer than window size: %s" n_ctx)
      else ret l
  end.

(** Truth value of [prompt_url] in [if prompt_url:]. *)
Definition truthy (prompt_url : option string) : bool :=
  match prompt_url with
  | None => false
  | Some u => negb (String.eqb u "")
  end.

(** Lines 80-81 and 93-94. *)
Fixpoint print_all (quotes : list string) : M unit :=
  match quotes with
  | [] => ret tt
  | quote :: rest => print quote ;; print_all rest
  end.

Section InteractModel.
Variable E : Collab.
Variable output : SampleOp.
Variable nsamples_ batch_size_ : Z.

(** Lines 76-81 and, word for word, lines 89-94: the call reads the local
    [prompt], whose binding state is [prompt_var]. *)
Definition generate_and_print (prompt_var : option string) : M unit :=
  prompt <- load_local "prompt" prompt_var ;;
  batches <- get_batches E output prompt nsamples_ batch_size_ ;;
  let quotes := extend_quotes batches [] in
  print_all quotes.

(** Lines 86-88. *)
Fixpoint while_not_raw_text (fuel : nat) (raw_text : string) : M string :=
  if String.eqb raw_text "" then
    match fuel with
    | O => out_of_fuel
    | S fuel' =>
        print empty_message ;;
        raw_text <- input banner ;;
        while_not_raw_text fuel' raw_text
    end
  else ret raw_text.

(** Lines 85-88.  Every pass of the inner loop takes a line from the
    finite [stdin], so one more than the number of lines left bounds it. *)
Definition read_prompt : M string :=
  raw_text <- input banner ;;
  fun w => while_not_raw_text (S (List.length (stdin w))) raw_text w.

(** Lines 84-94. *)
Fixpoint while_true (fuel : nat) (prompt_var : option string) : M unit :=
  match fuel with
  | O => out_of_fuel
  | S fuel' =>
      _ <- read_prompt ;;
      generate_and_print prompt_var ;;
      while_true fuel' prompt_var
  end.

(** Lines 73-94: one fetch and one generation when [prompt_url] is truthy,
    the prompt loop otherwise.  The local [prompt] is unbound on entry and
    is assigned in the URL branch only (line 75).  Every pass of the loop
    takes at least one line from [stdin], so one more than the number of
    lines left bounds the number of passes. *)
Definition serve (prompt_url : option string) : M unit :=
  let prompt : option string := None in
  let interactive : M unit :=
    fun w => while_true (S (List.length (stdin w))) prompt w in
  match prompt_url with
  | None => interactive
  | Some url =>
      if truthy (Some url) then
        text <- requests_get E url ;;
        let prompt := Some text in
        generate_and_print prompt
      else interactive
  end.
End InteractModel.

Definition interact_model (E : Collab) (cfg : Config) : M unit :=
  let batch_size := resolve_batch_size (batch_size cfg) in
  check_divisible (nsamples cfg) batch_size ;;
  let n_ctx := hparams_n_ctx E (model_name cfg) in
  length <- resolve_length (length cfg) n_ctx ;;
  let output :=
    mkSampleOp length batch_size (temperature cfg) (top_k cfg) (top_p cfg)
               (seed cfg) in
  serve E output (nsamples cfg) batch_size (prompt_url cfg).

Definition initial (lines : list string) : World := mkWorld lines [].

(* ===================================================================== *)
(** ** Vocabulary of the statements, and concrete inputs *)
(* ===================================================================== *)

(** ['"hello" - Alan Watts'], ['"bye" - Alan Watts'] and the three-segment
    text made of them with ['not a quote'] in between. *)
Definition hello_quote : string :=
  String PyStr.dquote ("hello" ++ PyStr.watts_suffix)%string.
Definition bye_quote : string :=
  String PyStr.dquote ("bye" ++ PyStr.watts_suffix)%string.
Definition example_batch : string :=
  (hello_quote ++ PyStr.blank_line ++ "not a quote" ++ PyStr.blank_line
   ++ bye_quote)%string.

(** ['"x" - Mark Twain'] and ['"x" - Alan Watts']. *)
Definition twain_quote : string :=
  String PyStr.dquote ("x" ++ String PyStr.dquote " - Mark Twain")%string.
Definition watts_quote : string :=
  String PyStr.dquote ("x" ++ PyStr.watts_suffix)%string.

(** [cfg] with another [author]. *)
Definition with_author (a : string) (cfg : Config) : Config :=
  {| model_name := model_name cfg; seed := seed cfg; nsamples := nsamples cfg;
     batch_size := batch_size cfg; length := length cfg;
     temperature := temperature cfg; top_k := top_k cfg; top_p := top_p cfg;
     prompt_url := prompt_url cfg; author := a |}.

(** The defaults with [nsamples], [batch_size] and [prompt_url] given. *)
Definition config_of (n : Z) (b : option Z) (url : option string) : Config :=
  {| model_name := "117M"; seed := None; nsamples := n; batch_size := b;
     length := None; temperature := 1%Q; top_k := 0; top_p := 0%Q;
     prompt_url := url; author := "Alan Watts" |}.

Definition example_url : string := "http://example.com/prompt.txt".

(** A toy set of collaborators: a two-token encoding, a sampler that
    appends one token to every row, a 1024-token window. *)
Definition toy : Collab :=
  {| enc_encode := fun _ => [1%Z; 2%Z];
     enc_decode := fun _ => "text";
     hparams_n_ctx := fun _ => 1024%Z;
     requests_get_text := fun _ => "fetched prompt";
     sess_run := fun _ _ feed => map (fun r => r ++ [7%Z]) feed |}.

(** A configuration that passes lines 44-56: the batch size is not zero
    and divides the sample count, and a length, if given, fits the window. *)
Definition valid_config (E : Collab) (cfg : Config) : bool :=
  let b := resolve_batch_size (batch_size cfg) in
  negb (b =? 0)%Z
  && (nsamples cfg mod b =? 0)%Z
  && match length cfg with
     | None => true
     | Some l => (l <=? hparams_n_ctx E (model_name cfg))%Z
     end.

(** The events of [n] rejected empty submissions. *)
Fixpoint reprompts (n : nat) : list event :=
  match n with
  | O => []
  | S n' => EvPrint empty_message :: EvInput banner :: reprompts n'
  end.

(** The feed of line 101 and the texts decoded from the [k]-th sampler
    invocation of the session (lines 100-107). *)
Definition batch_feed (E : Collab) (prompt : string) (batch_size : Z)
  : list (list Z) :=
  map (fun _ : nat => enc_encode E prompt) (range batch_size).

Definition round_texts (E : Collab) (output : SampleOp) (prompt : string)
           (batch_size : Z) (k : nat) : list string :=
  map (enc_decode E)
      (map (skipn (List.length (enc_encode E prompt)))
           (sess_run E output k (batch_feed E prompt batch_size))).

(** The six ways a run of [interact_model] from [w] can end: the exception
    raised and the world it leaves behind. *)
Inductive path (E : Collab) (cfg : Config) (w : World) : exn -> World -> Prop :=
| path_zero_batch :
    resolve_batch_size (batch_size cfg) = 0%Z ->
    path E cfg w ZeroDivisionError w
| path_indivisible :
    resolve_batch_size (batch_size cfg) <> 0%Z ->
    (nsamples cfg mod resolve_batch_size (batch_size cfg) <> 0)%Z ->
    path E cfg w AssertionError w
| path_too_long l :
    resolve_batch_size (batch_size cfg) <> 0%Z ->
    (nsamples cfg mod resolve_batch_size (batch_size cfg) = 0)%Z ->
    length cfg = Some l -> (l > hparams_n_ctx E (model_name cfg))%Z ->
    path E cfg w
         (ValueError "Can't get samples longer than window size: %s"
                     (hparams_n_ctx E (model_name cfg))) w
| path_url url :
    valid_config E cfg = true -> prompt_url cfg = Some url -> url <> "" ->
    path E cfg w
         (if (1 <=? nsamples cfg / resolve_batch_size (batch_size cfg))%Z
          then NameError "context" else UnboundLocalError "batches")
         (mkWorld (stdin w)
                  (trace w ++ [EvHttpGet url;
                               EvGetBatches (requests_get_text E url)]))
| path_line k line rest :
    valid_config E cfg = true -> truthy (prompt_url cfg) = false ->
    line <> "" -> stdin w = repeat "" k ++ line :: rest ->
    path E cfg w (UnboundLocalError "prompt")
         (mkWorld rest (trace w ++ EvInput banner :: reprompts k))
| path_eof k :
    valid_config E cfg = true -> truthy (prompt_url cfg) = false ->
    stdin w = repeat "" k ->
    path E cfg w EOFError
         (mkWorld [] (trace w ++ EvInput banner :: reprompts k)).

(** A namespace in which [context] is bound, and collaborators whose
    sampler returns [batch_size] rows that carry the number of the
    invocation, so that the texts of different rounds differ. *)
Definition bound_globals : list string := "context" :: module_globals.

Definition round_tagged : Collab :=
  {| enc_encode := fun _ => [1%Z; 2%Z];
     enc_decode := fun r =>
       match r with
       | [0%Z; _] => "first round"
       | [1%Z; _] => "second round"
       | _ => "later round"
       end;
     hparams_n_ctx := fun _ => 1024%Z;
     requests_get_text := fun _ => "fetched prompt";
     sess_run := fun op k _ =>
       map (fun i => [1%Z; 2%Z; Z.of_nat k; Z.of_nat i])
           (range (op_batch_size op)) |}.

(* ===================================================================== *)
(** * Properties *)
(* ===================================================================== *)

Module PyStrFacts.
Import PyStr.

Lemma append_assoc (a b c : string) :
  ((a ++ b) ++ c)%string = (a ++ (b ++ c))%string.
Proof. induction a as [|x a IH]; simpl; [reflexivity | now rewrite IH]. Qed.

Lemma append_empty_r (a : string) : (a ++ "")%string = a.
Proof. induction a as [|x a IH]; simpl; [reflexivity | now rewrite IH]. Qed.

Lemma length_append (a b : string) :
  String.length (a ++ b) = String.length a + String.length b.
Proof. induction a as [|x a IH]; simpl; [reflexivity | now rewrite IH]. Qed.

Lemma prefix_empty (s : string) : String.prefix "" s = true.
Proof. destruct s; reflexivity. Qed.

(** [prefix p s] holds exactly when [s] is [p] followed by something. *)
Lemma prefix_iff (p s : string) :
  String.prefix p s = true <-> exists r, s = (p ++ r)%string.
Proof.
  revert s. induction p as [|x p IH]; intros s.
  - rewrite prefix_empty. split; [intros _; now exists s | reflexivity].
  - destruct s as [|y s]; simpl.
    + split; [discriminate | intros [r Hr]; discriminate].
    + destruct (Ascii.ascii_dec x y) as [->|Hxy].
      * rewrite IH. split; intros [r Hr]; exists r; [now rewrite Hr | now inversion Hr].
      * split; [discriminate | intros [r Hr]; inversion Hr; congruence].
Qed.

Lemma prefix_append (p r : string) : String.prefix p (p ++ r) = true.
Proof. apply prefix_iff. now exists r. Qed.

(** A match that fits in a prefix of [s] is a match in [s]. *)
Lemma prefix_extend (p a b : string) :
  String.prefix p a = true -> String.prefix p (a ++ b) = true.
Proof.
  rewrite !prefix_iff. intros [r ->]. exists (r ++ b)%string.
  apply append_assoc.
Qed.

(** [endswith s p] holds exactly when [s] is something followed by [p]. *)
Lemma endswith_iff (s p : string) :
  endswith s p = true <-> exists a, s = (a ++ p)%string.
Proof.
  induction s as [|x s IH]; cbn [endswith].
  - destruct (String.eqb_spec "" p) as [<-|Hne].
    + split; [intros _; now exists "" | reflexivity].
    + split; [discriminate|].
      intros [a Ha]. destruct a; simpl in Ha; [congruence | discriminate].
  - destruct (String.eqb_spec (String x s) p) as [<-|Hne].
    + split; [intros _; now exists "" | reflexivity].
    + rewrite IH. split.
      * intros [a ->]. now exists (String x a).
      * intros [a Ha]. destruct a as [|y a]; simpl in Ha.
        -- congruence.
        -- inversion Ha. now exists a.
Qed.

Lemma startswith_iff (s p : string) :
  startswith s p = true <-> exists r, s = (p ++ r)%string.
Proof. apply prefix_iff. Qed.

Lemma last_char_append (a b : string) :
  b <> "" -> last_char (a ++ b) = last_char b.
Proof.
  intros Hb. induction a as [|x a IH]; simpl; [reflexivity|].
  rewrite IH. destruct (a ++ b)%string eqn:Hab; [|reflexivity].
  destruct a; simpl in Hab; [congruence | discriminate].
Qed.

Lemma occurs_cons (sep : string) (c : ascii) (s : string) :
  occurs sep (String c s) = String.prefix sep (String c s) || occurs sep s.
Proof. reflexivity. Qed.

(** *** Unfolding [split_aux] *)

Lemma split_aux_skip (sep t r : string) :
  split_aux sep (String.length t) (t ++ r) = split_aux sep 0 r.
Proof. induction t as [|x t IH]; simpl; [reflexivity | exact IH]. Qed.

Lemma split_aux_sep (sep r : string) :
  sep <> "" ->
  split_aux sep 0 (sep ++ r)
  = ("", fst (split_aux sep 0 r) :: snd (split_aux sep 0 r)).
Proof.
  intros Hsep. destruct sep as [|x sep]; [congruence|].
  change (String x sep ++ r)%string with (String x (sep ++ r)).
  unfold split_aux at 1; fold split_aux.
  change (String x (sep ++ r)) with (String x sep ++ r)%string.
  rewrite prefix_append.
  replace (String.length (String x sep) - 1) with (String.length sep)
    by (simpl; lia).
  rewrite split_aux_skip. now destruct (split_aux (String x sep) 0 r).
Qed.

Lemma split_aux_char (sep : string) (c : ascii) (s : string) :
  String.prefix sep (String c s) = false ->
  split_aux sep 0 (String c s)
  = (String c (fst (split_aux sep 0 s)), snd (split_aux sep 0 s)).
Proof.
  intros Hp. unfold split_aux at 1; fold split_aux. rewrite Hp.
  now destruct (split_aux sep 0 s).
Qed.

Lemma split_unfold (s sep : string) :
  split s sep = fst (split_aux sep 0 s) :: snd (split_aux sep 0 s).
Proof. unfold split. now destruct (split_aux sep 0 s). Qed.

Lemma split_sep (sep r : string) :
  sep <> "" -> split (sep ++ r) sep = "" :: split r sep.
Proof.
  intros Hsep. rewrite !split_unfold, split_aux_sep by assumption. reflexivity.
Qed.

Lemma concat_cons_char (sep : string) (c : ascii) (h : string) (t : list string) :
  String.concat sep (String c h :: t) = String c (String.concat sep (h :: t)).
Proof. destruct t; reflexivity. Qed.

Lemma concat_empty_cons (sep h : string) (t : list string) :
  String.concat sep ("" :: h :: t) = (sep ++ String.concat sep (h :: t))%string.
Proof. reflexivity. Qed.

(** The three facts that pin [split] down, by induction on the length of
    the input: joining gives the input back, the first segment is a prefix
    of the input, and no segment contains the separator. *)
Lemma split_aux_facts (sep : string) :
  sep <> "" ->
  forall n s, String.length s <= n ->
    String.concat sep (fst (split_aux sep 0 s) :: snd (split_aux sep 0 s)) = s
    /\ (exists r, s = (fst (split_aux sep 0 s) ++ r)%string)
    /\ Forall (fun seg => occurs sep seg = false)
              (fst (split_aux sep 0 s) :: snd (split_aux sep 0 s)).
Proof.
  intros Hsep. 
  assert (Hemp : occurs sep "" = false).
  { destruct sep; [congruence | reflexivity]. }
  induction n as [|n IH]; intros s Hlen.
  - destruct s; [|simpl in Hlen; lia]. simpl.
    repeat split; [now exists "" | constructor; [exact Hemp | constructor]].
  - destruct s as [|c s].
    { simpl. repeat split; [now exists "" | constructor; [exact Hemp | constructor]]. }
    destruct (String.prefix sep (String c s)) eqn:Hp.
    + apply prefix_iff in Hp. destruct Hp as [r Hr]. rewrite Hr.
      rewrite split_aux_sep by assumption.
      assert (Hr_len : String.length r <= n).
      { apply (f_equal String.length) in Hr. rewrite length_append in Hr.
        destruct sep; [congruence|]. simpl in Hr, Hlen. lia. }
      destruct (IH r Hr_len) as (Hj & _ & Hall).
      cbn [fst snd]. repeat split.
      * rewrite concat_empty_cons. now rewrite Hj.
      * now exists (sep ++ r)%string.
      * constructor; [exact Hemp | exact Hall].
    + rewrite split_aux_char by assumption.
      assert (Hs_len : String.length s <= n) by (simpl in Hlen; lia).
      destruct (IH s Hs_len) as (Hj & [r Hr] & Hall).
      cbn [fst snd]. repeat split.
      * rewrite concat_cons_char. now rewrite Hj.
      * exists r. simpl. now rewrite <- Hr.
      * inversion Hall as [|? ? Hh Ht]; subst. constructor; [|exact Ht].
        rewrite occurs_cons, Hh, orb_false_r.
        destruct (String.prefix sep (String c (fst (split_aux sep 0 s)))) eqn:Hq;
          [|reflexivity].
        apply (prefix_extend _ _ r) in Hq.
        change (String c (fst (split_aux sep 0 s)) ++ r)%string
          with (String c (fst (split_aux sep 0 s) ++ r)) in Hq.
        rewrite <- Hr in Hq. congruence.
Qed.

Lemma join_split (s sep : string) :
  sep <> "" -> join sep (split s sep) = s.
Proof.
  intros Hsep. unfold join. rewrite split_unfold.
  apply (split_aux_facts sep Hsep (String.length s) s (le_n _)).
Qed.

Lemma split_no_sep (s sep : string) :
  sep <> "" -> Forall (fun seg => occurs sep seg = false) (split s sep).
Proof.
  intros Hsep. rewrite split_unfold.
  apply (split_aux_facts sep Hsep (String.length s) s (le_n _)).
Qed.

(** A string without the separator is its own single segment. *)
Lemma split_whole (q sep : string) :
  occurs sep q = false -> split q sep = [q].
Proof.
  rewrite split_unfold. induction q as [|c q IH]; intros Ho.
  - reflexivity.
  - rewrite occurs_cons in Ho. apply orb_false_iff in Ho. destruct Ho as [Hp Ho].
    rewrite split_aux_char by assumption. specialize (IH Ho).
    injection IH as H1 H2. cbn [fst snd]. now rewrite H1, H2.
Qed.

(** A segment that neither contains a blank line nor ends in a newline is
    cut off exactly at the blank line that follows it. *)
Lemma split_blank_line_segment (q rest : string) :
  occurs blank_line q = false ->
  last_char q <> Some nl ->
  split (q ++ blank_line ++ rest) blank_line = q :: split rest blank_line.
Proof.
  induction q as [|c q IH]; intros Ho Hl.
  - apply (split_sep blank_line rest). discriminate.
  - rewrite occurs_cons in Ho. apply orb_false_iff in Ho. destruct Ho as [Hp Ho].
    assert (Hl' : last_char q <> Some nl).
    { destruct q; [discriminate | exact Hl]. }
    specialize (IH Ho Hl').
    rewrite split_unfold in IH |- *.
    change (String c q ++ blank_line ++ rest)%string
      with (String c (q ++ blank_line ++ rest)).
    assert (Hc : String.prefix blank_line (String c (q ++ blank_line ++ rest))
                 = false).
    { destruct (String.prefix blank_line (String c (q ++ blank_line ++ rest)))
        eqn:Hq; [exfalso | reflexivity].
      apply prefix_iff in Hq. destruct Hq as [r Hr].
      change (blank_line ++ r)%string with (String nl (String nl r)) in Hr.
      injection Hr as -> Hr.
      destruct q as [|d q].
      - now elim Hl.
      - change (String d q ++ blank_line ++ rest)%string
          with (String d (q ++ blank_line ++ rest)) in Hr.
        injection Hr as -> _.
        assert (Ht : String.prefix blank_line (String nl (String nl q)) = true)
          by (apply prefix_iff; now exists q).
        congruence. }
    rewrite split_aux_char by exact Hc.
    set (u := (q ++ blank_line ++ rest)%string) in *.
    injection IH as H1 H2. cbn [fst snd]. now rewrite H1, H2.
Qed.

End PyStrFacts.

(* ===================================================================== *)
(** ** The quote filter *)
(* ===================================================================== *)

Section FindQuotes.
Import PyStr PyStrFacts.

Lemma find_quotes_loop_filter (potential_quotes quotes : list string) :
  find_quotes_loop potential_quotes quotes
  = quotes ++ filter is_quote potential_quotes.
Proof.
  revert quotes. induction potential_quotes as [|pq rest IH]; intros quotes.
  - simpl. now rewrite app_nil_r.
  - simpl. destruct (is_quote pq); rewrite IH; [|reflexivity].
    now rewrite <- app_assoc.
Qed.

Lemma find_quotes_filter (batch : string) :
  find_quotes batch = filter is_quote (split batch blank_line).
Proof. unfold find_quotes. now rewrite find_quotes_loop_filter. Qed.

Lemma is_quote_iff (seg : string) :
  is_quote seg = true
  <-> (exists r, seg = String dquote r)
      /\ (exists a, seg = (a ++ watts_suffix)%string).
Proof.
  unfold is_quote. rewrite andb_true_iff, startswith_iff, endswith_iff.
  reflexivity.
Qed.

Lemma is_quote_last_char (seg : string) :
  is_quote seg = true -> last_char seg <> Some nl.
Proof.
  intros H. apply is_quote_iff in H. destruct H as [_ [a ->]].
  rewrite last_char_append by discriminate. discriminate.
Qed.

Lemma filter_filter {A} (f : A -> bool) (l : list A) :
  filter f (filter f l) = filter f l.
Proof.
  induction l as [|x l IH]; simpl; [reflexivity|].
  destruct (f x) eqn:Hx; simpl; [rewrite Hx, IH|]; auto.
Qed.

(** Splitting undoes joining for segments that are free of blank lines
    and do not end in a newline. *)
Lemma split_join_segments (qs : list string) :
  qs <> [] ->
  Forall (fun q => occurs blank_line q = false /\ last_char q <> Some nl) qs ->
  split (join blank_line qs) blank_line = qs.
Proof.
  induction qs as [|q qs IH]; intros Hne Hall; [congruence|].
  inversion Hall as [|? ? [Ho Hl] Hrest]; subst.
  destruct qs as [|q' qs].
  - simpl. now apply split_whole.
  - change (join blank_line (q :: q' :: qs))
      with (q ++ blank_line ++ join blank_line (q' :: qs))%string.
    rewrite split_blank_line_segment by assumption.
    rewrite IH; [reflexivity | discriminate | assumption].
Qed.

Lemma find_quotes_segments (s : string) :
  Forall (fun q => occurs blank_line q = false /\ is_quote q = true)
         (find_quotes s).
Proof.
  rewrite find_quotes_filter. apply Forall_forall. intros q Hq.
  apply filter_In in Hq. destruct Hq as [Hin Hq]. split; [|exact Hq].
  pose proof (split_no_sep s blank_line) as Hall.
  rewrite Forall_forall in Hall. apply Hall; [discriminate | exact Hin].
Qed.

End FindQuotes.

(** C3. The filter splits its input on the blank-line separator (joining
    the segments with it gives the input back, and no segment contains it),
    keeps, in order, exactly the segments that start with a double quote and
    end with the attribution suffix, and maps the three-segment example to
    its first and last segment. *)
Theorem find_quotes_blank_line_filter :
  (forall batch,
      find_quotes batch = filter is_quote (PyStr.split batch PyStr.blank_line)
      /\ PyStr.join PyStr.blank_line (PyStr.split batch PyStr.blank_line) = batch
      /\ Forall (fun seg => PyStr.occurs PyStr.blank_line seg = false)
                (PyStr.split batch PyStr.blank_line))
  /\ (forall seg,
         is_quote seg = true
         <-> (exists r, seg = String PyStr.dquote r)
             /\ (exists a, seg = (a ++ PyStr.watts_suffix)%string))
  /\ find_quotes example_batch = [hello_quote; bye_quote].
Proof.
  split; [|split].
  - intros batch. split; [apply find_quotes_filter|]. split.
    + apply PyStrFacts.join_split. discriminate.
    + apply PyStrFacts.split_no_sep. discriminate.
  - apply is_quote_iff.
  - reflexivity.
Qed.

(** C10. Filtering the retained quotes again, after joining them with blank
    lines, gives the same quotes: each of them is free of blank lines and
    passes the prefix and suffix test. *)
Theorem find_quotes_idempotent (s : string) :
  find_quotes (PyStr.join PyStr.blank_line (find_quotes s)) = find_quotes s
  /\ Forall (fun q => PyStr.occurs PyStr.blank_line q = false
                      /\ is_quote q = true)
            (find_quotes s).
Proof.
  split; [|apply find_quotes_segments].
  destruct (find_quotes s) as [|q qs] eqn:Hqs; [reflexivity|].
  rewrite (find_quotes_filter (PyStr.join _ _)).
  rewrite split_join_segments.
  - rewrite <- Hqs, find_quotes_filter. apply filter_filter.
  - discriminate.
  - rewrite <- Hqs. eapply Forall_impl; [|apply find_quotes_segments].
    intros a [Ho Hq]. split; [exact Ho | now apply is_quote_last_char].
Qed.

(* ===================================================================== *)
(** ** Name resolution in [get_batches] *)
(* ===================================================================== *)

Lemma context_not_global : existsb (String.eqb "context") module_globals = false.
Proof. reflexivity. Qed.

(** A round, if there is one, stops at the read of [context]. *)
Lemma rounds_loop_module (E : Collab) (output : SampleOp) (rounds : nat)
      (tokens : list Z) (b generated : Z) (w : World) :
  rounds_loop E module_globals output (S rounds) tokens b generated None w
  = (Raise (NameError "context"), w).
Proof. reflexivity. Qed.

(** What every call with a non-zero [batch_size] does. *)
Lemma get_batches_outcome (E : Collab) (output : SampleOp) (prompt : string)
      (n b : Z) (w : World) :
  b <> 0%Z ->
  get_batches E output prompt n b w
  = (Raise (if (1 <=? n / b)%Z then NameError "context"
            else UnboundLocalError "batches"),
     mkWorld (stdin w) (trace w ++ [EvGetBatches prompt])).
Proof.
  intros Hb. unfold get_batches, get_batches_in, bind, emit, py_floordiv.
  apply Z.eqb_neq in Hb. rewrite Hb. unfold ret at 1.
  destruct (Z.leb_spec 1 (n / b)) as [Hr|Hr].
  - destruct (Z.to_nat (n / b)) as [|k] eqn:Hk; [lia|].
    now rewrite rounds_loop_module.
  - replace (Z.to_nat (n / b)) with 0 by lia. reflexivity.
Qed.

Lemma get_batches_zero (E : Collab) (output : SampleOp) (prompt : string)
      (n : Z) (w : World) :
  get_batches E output prompt n 0 w
  = (Raise ZeroDivisionError,
     mkWorld (stdin w) (trace w ++ [EvGetBatches prompt])).
Proof. reflexivity. Qed.

(* ===================================================================== *)
(** ** Reading the prompt *)
(* ===================================================================== *)

Lemma string_eqb_nonempty (line : string) :
  line <> "" -> String.eqb line "" = false.
Proof. intros H. now apply String.eqb_neq. Qed.

(** The inner loop on [k] more empty lines followed by a non-empty one. *)
Lemma while_not_raw_text_line (k : nat) (line : string) (rest : list string) :
  line <> "" ->
  forall fuel tr, k < fuel ->
    while_not_raw_text fuel "" (mkWorld (repeat "" k ++ line :: rest) tr)
    = (Return line, mkWorld rest (tr ++ reprompts (S k))).
Proof.
  intros Hline. induction k as [|k IH]; intros fuel tr Hfuel;
    (destruct fuel as [|fuel]; [lia|]).
  - cbn. rewrite <- app_assoc. cbn. destruct fuel; cbn;
      rewrite (string_eqb_nonempty line Hline); reflexivity.
  - cbn -[while_not_raw_text]. 
    change (while_not_raw_text (S fuel) "" ?w)
      with ((print empty_message ;; raw_text <- input banner ;;
             while_not_raw_text fuel raw_text) w).
    unfold bind, print, emit, input. cbn [stdin trace].
    rewrite IH by lia. cbn [reprompts]. 
    rewrite <- !app_assoc. reflexivity.
Qed.

(** The inner loop on [k] more empty lines followed by end of input. *)
Lemma while_not_raw_text_eof (k : nat) :
  forall fuel tr, k < fuel ->
    while_not_raw_text fuel "" (mkWorld (repeat "" k) tr)
    = (Raise EOFError, mkWorld [] (tr ++ reprompts (S k))).
Proof.
  induction k as [|k IH]; intros fuel tr Hfuel;
    (destruct fuel as [|fuel]; [lia|]).
  - cbn. rewrite <- app_assoc. reflexivity.
  - cbn -[while_not_raw_text].
    change (while_not_raw_text (S fuel) "" ?w)
      with ((print empty_message ;; raw_text <- input banner ;;
             while_not_raw_text fuel raw_text) w).
    unfold bind, print, emit, input. cbn [stdin trace].
    rewrite IH by lia. cbn [reprompts].
    rewrite <- !app_assoc. reflexivity.
Qed.

Lemma read_prompt_line (k : nat) (line : string) (rest : list string)
      (tr : list event) :
  line <> "" ->
  read_prompt (mkWorld (repeat "" k ++ line :: rest) tr)
  = (Return line, mkWorld rest (tr ++ EvInput banner :: reprompts k)).
Proof.
  intros Hline. unfold read_prompt, bind, input. cbn [stdin trace].
  destruct k as [|k]; cbn [repeat app stdin].
  - cbn. now rewrite (string_eqb_nonempty line Hline).
  - rewrite while_not_raw_text_line; [|assumption|].
    + now rewrite <- app_assoc.
    + rewrite length_app, repeat_length. cbn. lia.
Qed.

Lemma read_prompt_eof (k : nat) (tr : list event) :
  read_prompt (mkWorld (repeat "" k) tr)
  = (Raise EOFError, mkWorld [] (tr ++ EvInput banner :: reprompts k)).
Proof.
  unfold read_prompt, bind, input. cbn [stdin trace].
  destruct k as [|k]; cbn [repeat app stdin].
  - reflexivity.
  - rewrite while_not_raw_text_eof; [|rewrite repeat_length; lia].
    now rewrite <- app_assoc.
Qed.

(** Any finite input is some empty lines followed either by a non-empty
    line or by the end of input. *)
Lemma stdin_shape (lines : list string) :
  (exists k line rest, line <> "" /\ lines = repeat "" k ++ line :: rest)
  \/ (exists k, lines = repeat "" k).
Proof.
  induction lines as [|l lines IH].
  - right. now exists 0.
  - destruct (String.eqb_spec l "") as [->|Hl].
    + destruct IH as [(k & line & rest & Hline & ->)|[k ->]].
      * left. now exists (S k), line, rest.
      * right. now exists (S k).
    + left. now exists 0, l, lines.
Qed.

Lemma filter_reprompts (p : event -> bool) (k : nat) :
  p (EvPrint empty_message) = false -> p (EvInput banner) = false ->
  filter p (reprompts k) = [].
Proof.
  intros H1 H2. induction k as [|k IH]; cbn [reprompts filter];
    [reflexivity | now rewrite H1, H2].
Qed.

(* ===================================================================== *)
(** ** Symbolic execution of [interact_model] *)
(* ===================================================================== *)

Section Paths.
Variable E : Collab.

Lemma generate_and_print_unbound (output : SampleOp) (n b : Z) (w : World) :
  generate_and_print E output n b None w
  = (Raise (UnboundLocalError "prompt"), w).
Proof. reflexivity. Qed.

Lemma generate_and_print_bound (output : SampleOp) (n b : Z) (p : string)
      (w : World) :
  b <> 0%Z ->
  generate_and_print E output n b (Some p) w
  = (Raise (if (1 <=? n / b)%Z then NameError "context"
            else UnboundLocalError "batches"),
     mkWorld (stdin w) (trace w ++ [EvGetBatches p])).
Proof.
  intros Hb. unfold generate_and_print, bind, load_local. unfold ret at 1.
  now rewrite get_batches_outcome.
Qed.

Lemma while_true_line (output : SampleOp) (n b : Z) (fuel k : nat)
      (line : string) (rest : list string) (tr : list event) :
  line <> "" ->
  while_true E output n b (S fuel) None
             (mkWorld (repeat "" k ++ line :: rest) tr)
  = (Raise (UnboundLocalError "prompt"),
     mkWorld rest (tr ++ EvInput banner :: reprompts k)).
Proof.
  intros Hline. cbn [while_true]. unfold bind at 1.
  now rewrite read_prompt_line.
Qed.

Lemma while_true_eof (output : SampleOp) (n b : Z) (fuel k : nat)
      (tr : list event) :
  while_true E output n b (S fuel) None (mkWorld (repeat "" k) tr)
  = (Raise EOFError, mkWorld [] (tr ++ EvInput banner :: reprompts k)).
Proof. cbn [while_true]. unfold bind at 1. now rewrite read_prompt_eof. Qed.

Variable cfg : Config.
Variable w : World.
Local Abbreviation b := (resolve_batch_size (batch_size cfg)).
Local Abbreviation n := (nsamples cfg).
Local Abbreviation n_ctx := (hparams_n_ctx E (model_name cfg)).

Lemma interact_model_zero_batch :
  b = 0%Z -> interact_model E cfg w = (Raise ZeroDivisionError, w).
Proof.
  intros Hb. unfold interact_model, check_divisible, bind, py_mod.
  now rewrite Hb.
Qed.

Lemma interact_model_indivisible :
  b <> 0%Z -> (n mod b <> 0)%Z ->
  interact_model E cfg w = (Raise AssertionError, w).
Proof.
  intros Hb Hm. unfold interact_model, check_divisible, bind, py_mod.
  apply Z.eqb_neq in Hb, Hm. rewrite Hb. unfold ret at 1.
  now rewrite Hm.
Qed.

Lemma interact_model_too_long (l : Z) :
  b <> 0%Z -> (n mod b = 0)%Z -> length cfg = Some l -> (l > n_ctx)%Z ->
  interact_model E cfg w
  = (Raise (ValueError "Can't get samples longer than window size: %s" n_ctx),
     w).
Proof.
  intros Hb Hm Hl Hgt. unfold interact_model, check_divisible, bind, py_mod.
  apply Z.eqb_neq in Hb. apply Z.eqb_eq in Hm.
  rewrite Hb. unfold ret at 1. rewrite Hm. unfold assert_, ret at 1.
  rewrite Hl. unfold resolve_length.
  apply Z.gt_lt, Z.gtb_lt in Hgt. now rewrite Hgt.
Qed.

Lemma valid_config_iff :
  valid_config E cfg = true
  <-> b <> 0%Z /\ (n mod b = 0)%Z
      /\ (forall l, length cfg = Some l -> (l <= n_ctx)%Z).
Proof.
  unfold valid_config.
  rewrite !andb_true_iff, negb_true_iff, Z.eqb_neq, Z.eqb_eq.
  destruct (length cfg) as [l|].
  - rewrite Z.leb_le. split.
    + intros [[Hb Hm] Hl]. repeat split; auto. intros l' [= <-]. exact Hl.
    + intros (Hb & Hm & Hl). auto.
  - split; [intros [[Hb Hm] _] | intros (Hb & Hm & _)]; repeat split; auto.
    discriminate.
Qed.

(** Past the checks of lines 44-56 the run is the mode dispatch of line 73
    on an unchanged world. *)
Lemma interact_model_valid :
  valid_config E cfg = true ->
  exists output, interact_model E cfg w = serve E output n b (prompt_url cfg) w.
Proof.
  intros Hv. apply valid_config_iff in Hv. destruct Hv as (Hb & Hm & Hl).
  unfold interact_model, check_divisible, py_mod.
  apply Z.eqb_neq in Hb. apply Z.eqb_eq in Hm.
  unfold bind at 1. unfold bind at 1. rewrite Hb. unfold ret at 1.
  rewrite Hm. unfold assert_, ret at 1. unfold bind at 1.
  destruct (length cfg) as [l|]; unfold resolve_length.
  - specialize (Hl l eq_refl).
    assert (Hle : (l >? n_ctx)%Z = false)
      by (rewrite Z.gtb_ltb; apply Z.ltb_ge; lia).
    rewrite Hle. unfold ret at 1. eexists. reflexivity.
  - unfold ret at 1. eexists. reflexivity.
Qed.

Lemma serve_interactive (output : SampleOp) (u : option string) :
  truthy u = false ->
  serve E output n b u w
  = while_true E output n b (S (List.length (stdin w))) None w.
Proof.
  intros Ht. unfold serve. destruct u as [url|]; [|reflexivity].
  now rewrite Ht.
Qed.

Lemma truthy_iff (u : option string) :
  truthy u = true <-> exists url, u = Some url /\ url <> "".
Proof.
  destruct u as [url|]; simpl.
  - rewrite negb_true_iff, String.eqb_neq. split.
    + intros H. now exists url.
    + now intros (url' & [= <-] & H).
  - split; [discriminate | now intros (url & H & _)].
Qed.

Lemma interact_model_url (url : string) :
  valid_config E cfg = true -> prompt_url cfg = Some url -> url <> "" ->
  interact_model E cfg w
  = (Raise (if (1 <=? n / b)%Z then NameError "context"
            else UnboundLocalError "batches"),
     mkWorld (stdin w)
             (trace w ++ [EvHttpGet url;
                          EvGetBatches (requests_get_text E url)])).
Proof.
  intros Hv Hu Hne. destruct (interact_model_valid Hv) as [output ->].
  assert (Ht : truthy (prompt_url cfg) = true)
    by (apply truthy_iff; now exists url).
  rewrite Hu. unfold serve. rewrite <- Hu, Ht.
  apply valid_config_iff in Hv. destruct Hv as (Hb & _).
  unfold bind, requests_get, emit. unfold ret at 1.
  unfold bind. rewrite generate_and_print_bound by exact Hb.
  cbn [stdin trace]. now rewrite <- app_assoc.
Qed.

Lemma interact_model_interactive_line (k : nat) (line : string)
      (rest : list string) :
  valid_config E cfg = true -> truthy (prompt_url cfg) = false ->
  line <> "" -> stdin w = repeat "" k ++ line :: rest ->
  interact_model E cfg w
  = (Raise (UnboundLocalError "prompt"),
     mkWorld rest (trace w ++ EvInput banner :: reprompts k)).
Proof.
  intros Hv Ht Hline Hin. destruct (interact_model_valid Hv) as [output ->].
  rewrite serve_interactive by exact Ht.
  destruct w as [lines tr]. cbn [stdin trace] in *. subst lines.
  now apply while_true_line.
Qed.

Lemma interact_model_interactive_eof (k : nat) :
  valid_config E cfg = true -> truthy (prompt_url cfg) = false ->
  stdin w = repeat "" k ->
  interact_model E cfg w
  = (Raise EOFError, mkWorld [] (trace w ++ EvInput banner :: reprompts k)).
Proof.
  intros Hv Ht Hin. destruct (interact_model_valid Hv) as [output ->].
  rewrite serve_interactive by exact Ht.
  destruct w as [lines tr]. cbn [stdin trace] in *. subst lines.
  now apply while_true_eof.
Qed.

Lemma interact_model_path :
  exists e w', interact_model E cfg w = (Raise e, w') /\ path E cfg w e w'.
Proof.
  destruct (Z.eq_dec b 0) as [Hb|Hb].
  { do 2 eexists. split; [now apply interact_model_zero_batch|].
    now constructor. }
  destruct (Z.eq_dec (n mod b) 0) as [Hm|Hm].
  2:{ do 2 eexists. split; [now apply interact_model_indivisible|].
      now constructor. }
  destruct (valid_config E cfg) eqn:Hv.
  2:{ assert (exists l, length cfg = Some l /\ (l > n_ctx)%Z) as (l & Hl & Hgt).
      { unfold valid_config in Hv.
        apply Z.eqb_neq in Hb. apply Z.eqb_eq in Hm. rewrite Hb, Hm in Hv.
        destruct (length cfg) as [l|]; [|discriminate].
        exists l. split; [reflexivity|]. simpl in Hv. apply Z.leb_gt in Hv. lia. }
      do 2 eexists. split; [now apply (interact_model_too_long l)|].
      now apply (path_too_long E cfg w l). }
  destruct (truthy (prompt_url cfg)) eqn:Ht.
  { apply truthy_iff in Ht. destruct Ht as (url & Hu & Hne).
    do 2 eexists. split; [now apply (interact_model_url url)|].
    now apply (path_url E cfg w url). }
  destruct (stdin_shape (stdin w)) as [(k & line & rest & Hline & Hin)|[k Hin]].
  - do 2 eexists. split; [now apply (interact_model_interactive_line k line rest)|].
    now apply (path_line E cfg w k line rest).
  - do 2 eexists. split; [now apply (interact_model_interactive_eof k)|].
    now apply (path_eof E cfg w k).
Qed.
End Paths.

Lemma path_no_sess_run (E : Collab) (cfg : Config) (w : World) (e : exn)
      (w' : World) :
  path E cfg w e w' -> count is_sess_run w' = count is_sess_run w.
Proof.
  unfold count. intros H. destruct H; try reflexivity; cbn [trace];
    rewrite filter_app; cbn [filter is_sess_run];
    rewrite ?filter_reprompts by reflexivity; now rewrite app_nil_r.
Qed.

Lemma path_not_assertion (E : Collab) (cfg : Config) (w : World) (e : exn)
      (w' : World) :
  path E cfg w e w' ->
  resolve_batch_size (batch_size cfg) <> 0%Z ->
  (nsamples cfg mod resolve_batch_size (batch_size cfg) = 0)%Z ->
  e <> AssertionError.
Proof.
  intros H Hb Hm. destruct H; try discriminate; try contradiction.
  now destruct (1 <=? _)%Z.
Qed.

Lemma path_get_batches (E : Collab) (cfg : Config) (w : World) (e : exn)
      (w' : World) :
  path E cfg w e w' ->
  count is_get_batches w' = count is_get_batches w \/ is_unbound_name e = true.
Proof.
  unfold count. intros H. destruct H; cbn [trace];
    try (left; reflexivity);
    try (right; reflexivity);
    try (right; now destruct (1 <=? _)%Z);
    (left; rewrite filter_app; cbn [filter is_get_batches];
     rewrite filter_reprompts by reflexivity; now rewrite app_nil_r).
Qed.

(* ===================================================================== *)
(** ** The batching loop in a namespace that binds [context] *)
(* ===================================================================== *)

Lemma count_sess_run_step (lines : list string) (tr : list event)
      (feed : list (list Z)) :
  count is_sess_run (mkWorld lines (tr ++ [EvSessRun feed]))
  = S (count is_sess_run (mkWorld lines tr)).
Proof. unfold count. cbn [trace]. rewrite filter_app, length_app. cbn. lia. Qed.

Lemma count_get_batches_step (lines : list string) (tr : list event)
      (prompt : string) :
  count is_sess_run (mkWorld lines (tr ++ [EvGetBatches prompt]))
  = count is_sess_run (mkWorld lines tr).
Proof. unfold count. cbn [trace]. rewrite filter_app, length_app. cbn. lia. Qed.

Section BoundContext.
Variable E : Collab.
Variable globals : list string.
Variable output : SampleOp.
Hypothesis context_bound : existsb (String.eqb "context") globals = true.

Lemma decode_loop_rows (out : list (list Z)) (m : nat) :
  forall i generated batches w,
    i + m <= List.length out ->
    decode_loop E out (seq i m) generated batches w
    = (Return ((generated + Z.of_nat m)%Z,
               batches ++ map (enc_decode E) (firstn m (skipn i out))),
       w).
Proof.
  induction m as [|m IH]; intros i generated batches w Hlen.
  - cbn. now rewrite Z.add_0_r, app_nil_r.
  - cbn [seq decode_loop]. unfold bind, row.
    destruct (nth_error out i) as [r|] eqn:Hr.
    2:{ apply nth_error_None in Hr. exfalso. lia. }
    unfold ret at 1. rewrite IH by lia.
    assert (Hs : skipn i out = r :: skipn (S i) out).
    { clear - Hr. revert i Hr. induction out as [|x out IHo]; intros i Hr.
      - destruct i; discriminate.
      - destruct i as [|i]; cbn in *; [congruence | now apply IHo]. }
    rewrite Hs. cbn [firstn map]. rewrite <- app_assoc. cbn [app].
    do 3 f_equal. lia.
Qed.

Variable prompt : string.
Variable b : Z.
Hypothesis sampler_rows :
  forall k feed, List.length (sess_run E output k feed) = Z.to_nat b.

Local Abbreviation tokens := (enc_encode E prompt).
Local Abbreviation feed := (batch_feed E prompt b).
Local Abbreviation decoded := (round_texts E output prompt b).

(** Whatever [batches] held before, after one more round it holds that
    round's texts only. *)
Lemma rounds_loop_last (k : nat) :
  forall generated batches w,
    exists generated',
      rounds_loop E globals output (S k) tokens b generated batches w
      = (Return (generated', Some (decoded (count is_sess_run w + k))),
         mkWorld (stdin w) (trace w ++ repeat (EvSessRun feed) (S k))).
Proof.
  induction k as [|k IH]; intros generated batches w.
  - cbn [rounds_loop]. unfold bind at 1, load_global.
    rewrite context_bound. unfold ret at 1. unfold bind at 1, run_sampler.
    unfold bind at 1. unfold range at 2. rewrite decode_loop_rows.
    2:{ rewrite length_map, sampler_rows. lia. }
    eexists. unfold ret. cbn [fst snd app]. rewrite skipn_O, Nat.add_0_r.
    rewrite firstn_all2 by (rewrite length_map, sampler_rows; lia).
    reflexivity.
  - change (rounds_loop E globals output (S (S k)) tokens b generated batches)
      with (load_global globals "context" ;;
            out <- run_sampler E output
                     (map (fun _ => tokens) (range b)) ;;
            let out := map (skipn (List.length tokens)) out in
            gb <- decode_loop E out (range b) generated [] ;;
            rounds_loop E globals output (S k) tokens b (fst gb)
                        (Some (snd gb)))%py.
    unfold bind at 1, load_global.
    rewrite context_bound. unfold ret at 1. unfold bind at 1, run_sampler.
    unfold bind at 1. unfold range at 2. rewrite decode_loop_rows.
    2:{ rewrite length_map, sampler_rows. lia. }
    cbv zeta. cbn [fst snd].
    match goal with
    | |- context [rounds_loop _ _ _ _ _ _ ?g ?bs ?w1] =>
        destruct (IH g bs w1) as [generated' ->]
    end.
    exists generated'. cbn [stdin trace]. f_equal.
    + rewrite count_sess_run_step. unfold count. cbn [trace].
      now rewrite Nat.add_succ_comm.
    + f_equal. rewrite <- app_assoc. reflexivity.
Qed.

(** With [context] bound and every sampler result [batch_size] rows long,
    a call with at least one round returns the texts of the last round
    and nothing of the earlier ones. *)
Lemma get_batches_in_last_round (n : Z) (w : World) :
  b <> 0%Z -> (1 <= n / b)%Z ->
  get_batches_in E globals output prompt n b w
  = (Return (decoded (count is_sess_run w + (Z.to_nat (n / b) - 1))),
     mkWorld (stdin w)
             (trace w ++ EvGetBatches prompt
                :: repeat (EvSessRun feed) (Z.to_nat (n / b)))).
Proof.
  intros Hb Hr. unfold get_batches_in, bind at 1, emit.
  unfold bind at 1, py_floordiv. apply Z.eqb_neq in Hb. rewrite Hb.
  unfold ret at 1. destruct (Z.to_nat (n / b)) as [|k] eqn:Hk; [lia|].
  unfold bind.
  match goal with
  | |- context [rounds_loop _ _ _ _ _ _ ?g ?bs ?w1] =>
      destruct (rounds_loop_last k g bs w1) as [generated' ->]
  end.
  cbn [snd load_local]. unfold ret. cbn [stdin trace]. f_equal.
  - rewrite count_get_batches_step. unfold count. cbn [trace].
    replace (S k - 1) with k by lia. reflexivity.
  - f_equal. now rewrite <- app_assoc.
Qed.

Lemma get_batches_in_last_round_length (n : Z) (w : World) :
  List.length (decoded (count is_sess_run w + (Z.to_nat (n / b) - 1)))
  = Z.to_nat b.
Proof. unfold round_texts. now rewrite !length_map, sampler_rows. Qed.
End BoundContext.

(* ===================================================================== *)
(** ** Main results *)
(* ===================================================================== *)

(** C1. In interactive mode the first non-empty line ends the run at line
    89 with [UnboundLocalError] for [prompt]: the entered text is not handed
    to [get_batches], nothing is generated or printed, and the next line of
    input is never read.  So it is at the default configuration with
    [hello] typed at the first prompt, and in every configuration that
    passes the checks, however many empty lines come first. *)
Theorem interactive_prompt_is_unbound (E : Collab) :
  interact_model E default_config (initial ["hello"; "again"])
  = (Raise (UnboundLocalError "prompt"), mkWorld ["again"] [EvInput banner])
  /\ (forall cfg k line rest tr,
         valid_config E cfg = true -> truthy (prompt_url cfg) = false ->
         line <> "" ->
         interact_model E cfg (mkWorld (repeat "" k ++ line :: rest) tr)
         = (Raise (UnboundLocalError "prompt"),
            mkWorld rest (tr ++ EvInput banner :: reprompts k))).
Proof.
  split; [reflexivity|].
  intros cfg k line rest tr Hv Ht Hline.
  now apply (interact_model_interactive_line
               E cfg (mkWorld (repeat "" k ++ line :: rest) tr) k line rest).
Qed.

(** C2. Every call of [get_batches] with a non-zero batch size ends in an
    unbound-name error with the sampler not run: [NameError] for [context],
    which is not bound at module scope, as soon as there is a round to run.
    A zero batch size does not get past line 46, so in every run of
    [interact_model] that enters [get_batches] the call ends in such an
    error, and no run, in either mode, ends normally or runs the sampler. *)
Theorem get_batches_unbound_name (E : Collab) (output : SampleOp)
        (prompt : string) (n b : Z) (w : World) :
  b <> 0%Z ->
  (exists e,
      get_batches E output prompt n b w
      = (Raise e, mkWorld (stdin w) (trace w ++ [EvGetBatches prompt]))
      /\ is_unbound_name e = true
      /\ ((1 <= n / b)%Z -> e = NameError "context"))
  /\ existsb (String.eqb "context") module_globals = false
  /\ (forall cfg w0, exists e w',
         interact_model E cfg w0 = (Raise e, w')
         /\ count is_sess_run w' = count is_sess_run w0
         /\ (count is_get_batches w' <> count is_get_batches w0 ->
             is_unbound_name e = true)).
Proof.
  intros Hb. split; [|split].
  - eexists. split; [now apply get_batches_outcome|].
    destruct (Z.leb_spec 1 (n / b)); split; try reflexivity; intros; lia.
  - reflexivity.
  - intros cfg w0. destruct (interact_model_path E cfg w0) as (e & w' & Hr & Hp).
    exists e, w'. split; [exact Hr|].
    split; [exact (path_no_sess_run E cfg w0 e w' Hp)|].
    intros Hc. destruct (path_get_batches E cfg w0 e w' Hp); [contradiction|].
    assumption.
Qed.

Lemma get_batches_unbound_name_witness :
  (1 <> 0)%Z
  /\ (exists e,
         get_batches toy (mkSampleOp 512 1 1%Q 0 0%Q None) "hi" 2 1 (initial [])
         = (Raise e, mkWorld [] [EvGetBatches "hi"])
         /\ is_unbound_name e = true
         /\ ((1 <= 2 / 1)%Z -> e = NameError "context")).
Proof.
  assert (H : (1 <> 0)%Z) by discriminate.
  split; [exact H|].
  exact (proj1 (get_batches_unbound_name toy (mkSampleOp 512 1 1%Q 0 0%Q None)
                                         "hi" 2 1 (initial []) H)).
Defined.

(** C4. The filter does not look at [author]: with any author configured
    the run is the same, a segment attributed to Mark Twain is dropped and
    one attributed to Alan Watts is kept. *)
Theorem author_is_ignored :
  find_quotes twain_quote = []
  /\ find_quotes watts_quote = [watts_quote]
  /\ (forall E a cfg w, interact_model E (with_author a cfg) w
                        = interact_model E cfg w).
Proof. split; [reflexivity|]. split; [reflexivity|]. intros; reflexivity. Qed.

(** C5. A call with at least one round returns nothing: the first round
    raises [NameError] for [context] before the sampler is run.  So it is
    with two rounds of one sample each, and for every sample count and
    non-zero batch size that give a round. *)
Theorem get_batches_two_rounds_raises (E : Collab) (output : SampleOp)
        (w : World) :
  get_batches E output "hi" 2 1 w
  = (Raise (NameError "context"),
     mkWorld (stdin w) (trace w ++ [EvGetBatches "hi"]))
  /\ (forall prompt n b,
         b <> 0%Z -> (1 <= n / b)%Z ->
         get_batches E output prompt n b w
         = (Raise (NameError "context"),
            mkWorld (stdin w) (trace w ++ [EvGetBatches prompt]))).
Proof.
  split; [reflexivity|].
  intros prompt n b Hb Hr. rewrite get_batches_outcome by exact Hb.
  apply Z.leb_le in Hr. now rewrite Hr.
Qed.

(** C6. When the batch size (1 if absent) is not zero and does not divide
    the sample count, [interact_model] raises [AssertionError] with nothing
    read, fetched, printed or generated; when it divides the sample count,
    the check of line 46 passes and the run does not end in
    [AssertionError]. *)
Theorem indivisible_sample_count_rejected (E : Collab) (cfg : Config)
        (w : World) :
  resolve_batch_size (batch_size cfg) <> 0%Z ->
  ((nsamples cfg mod resolve_batch_size (batch_size cfg) <> 0)%Z ->
   interact_model E cfg w = (Raise AssertionError, w))
  /\ ((nsamples cfg mod resolve_batch_size (batch_size cfg) = 0)%Z ->
      check_divisible (nsamples cfg) (resolve_batch_size (batch_size cfg)) w
      = (Return tt, w)
      /\ forall w', interact_model E cfg w <> (Raise AssertionError, w')).
Proof.
  intros Hb. split.
  - intros Hm. now apply interact_model_indivisible.
  - intros Hm. split.
    + unfold check_divisible, bind, py_mod.
      apply Z.eqb_neq in Hb. apply Z.eqb_eq in Hm.
      rewrite Hb. unfold ret at 1. now rewrite Hm.
    + intros w' Hr.
      destruct (interact_model_path E cfg w) as (e & w'' & Hr' & Hp).
      rewrite Hr in Hr'. injection Hr' as <- _.
      now apply (path_not_assertion E cfg w _ _ Hp Hb Hm).
Qed.

Lemma indivisible_sample_count_rejected_witness :
  (resolve_batch_size (batch_size (config_of 3 (Some 2%Z) None)) <> 0)%Z
  /\ (3 mod 2 <> 0)%Z
  /\ interact_model toy (config_of 3 (Some 2%Z) None) (initial ["hello"])
     = (Raise AssertionError, initial ["hello"]).
Proof.
  assert (Hb : (resolve_batch_size (batch_size (config_of 3 (Some 2%Z) None))
                <> 0)%Z) by discriminate.
  assert (Hm : (3 mod 2 <> 0)%Z) by discriminate.
  split; [exact Hb|]. split; [exact Hm|].
  exact (proj1 (indivisible_sample_count_rejected
                  toy (config_of 3 (Some 2%Z) None) (initial ["hello"]) Hb) Hm).
Defined.

(** C7. A requested length above the context window raises [ValueError]
    (after the divisibility check, and before anything else happens); with
    no length given the effective length is the floor of half the window; a
    length within the window is kept as it is. *)
Theorem length_validation (E : Collab) (cfg : Config) (w : World) :
  let n_ctx := hparams_n_ctx E (model_name cfg) in
  let b := resolve_batch_size (batch_size cfg) in
  (forall l, (l > n_ctx)%Z ->
     resolve_length (Some l) n_ctx w
     = (Raise (ValueError "Can't get samples longer than window size: %s" n_ctx),
        w))
  /\ resolve_length None n_ctx w = (Return (n_ctx / 2)%Z, w)
  /\ (forall l, (l <= n_ctx)%Z -> resolve_length (Some l) n_ctx w = (Return l, w))
  /\ (forall l, length cfg = Some l -> (l > n_ctx)%Z ->
        b <> 0%Z -> (nsamples cfg mod b = 0)%Z ->
        interact_model E cfg w
        = (Raise (ValueError "Can't get samples longer than window size: %s"
                             n_ctx), w)).
Proof.
  intros n_ctx b. repeat split.
  - intros l Hl. unfold resolve_length.
    apply Z.gt_lt, Z.gtb_lt in Hl. now rewrite Hl.
  - intros l Hl. unfold resolve_length.
    assert (Hle : (l >? n_ctx)%Z = false)
      by (rewrite Z.gtb_ltb; apply Z.ltb_ge; lia).
    now rewrite Hle.
  - intros l Hlen Hl Hb Hm. now apply (interact_model_too_long E cfg w l).
Qed.

Lemma length_validation_witness :
  (1025 > 1024)%Z
  /\ resolve_length (Some 1025%Z) 1024 (initial [])
     = (Raise (ValueError "Can't get samples longer than window size: %s" 1024),
        initial [])
  /\ resolve_length None 1024 (initial []) = (Return 512%Z, initial [])
  /\ resolve_length (Some 1024%Z) 1024 (initial []) = (Return 1024%Z, initial []).
Proof.
  assert (H1 : (1025 > 1024)%Z) by reflexivity.
  assert (H2 : (1024 <= 1024)%Z) by discriminate.
  pose proof (length_validation toy default_config (initial [])) as H.
  cbv zeta in H. destruct H as (Ha & Hb & Hc & _).
  split; [exact H1|]. split; [exact (Ha 1025%Z H1)|].
  split; [exact Hb | exact (Hc 1024%Z H2)].
Defined.

(** C8. Each of [k] consecutive empty submissions is answered by the
    validation message and another read, and nothing else happens: after
    them a non-empty line is returned as the prompt text, and the end of
    input raises [EOFError]; either way the trace grows by the first prompt
    and [k] message-and-prompt pairs, with no call of [get_batches] and no
    sampler run among them, and a run of [interact_model] that is fed empty
    lines only generates nothing. *)
Theorem empty_input_reprompts (k : nat) (line : string) (rest : list string)
        (tr : list event) :
  line <> "" ->
  read_prompt (mkWorld (repeat "" k ++ line :: rest) tr)
  = (Return line, mkWorld rest (tr ++ EvInput banner :: reprompts k))
  /\ read_prompt (mkWorld (repeat "" k) tr)
     = (Raise EOFError, mkWorld [] (tr ++ EvInput banner :: reprompts k))
  /\ filter is_sess_run (reprompts k) = []
  /\ filter is_get_batches (reprompts k) = []
  /\ List.length (filter is_print (reprompts k)) = k
  /\ (forall E cfg,
         valid_config E cfg = true -> truthy (prompt_url cfg) = false ->
         interact_model E cfg (mkWorld (repeat "" k) tr)
         = (Raise EOFError, mkWorld [] (tr ++ EvInput banner :: reprompts k))).
Proof.
  intros Hline. split; [now apply read_prompt_line|].
  split; [apply read_prompt_eof|].
  split; [now apply filter_reprompts|].
  split; [now apply filter_reprompts|].
  split.
  - induction k as [|k IH]; cbn; [reflexivity | now rewrite IH].
  - intros E cfg Hv Ht.
    now apply (interact_model_interactive_eof E cfg (mkWorld (repeat "" k) tr) k).
Qed.

Lemma empty_input_reprompts_witness :
  "hello" <> ""
  /\ read_prompt (mkWorld [""; ""; "hello"; "again"] [])
     = (Return "hello",
        mkWorld ["again"]
                [EvInput banner; EvPrint empty_message; EvInput banner;
                 EvPrint empty_message; EvInput banner]).
Proof.
  assert (H : "hello" <> "") by discriminate.
  split; [exact H|].
  exact (proj1 (empty_input_reprompts 2 "hello" ["again"] [] H)).
Defined.

(** C9. With a prompt URL the run fetches the URL once, enters
    [get_batches] once and ends there with an unbound-name error: the
    sampler is not run, nothing is printed, no generation-and-filter cycle
    is completed and the function does not return.  The interactive prompt
    is never shown.  So it is at the default configuration, where the error
    is [NameError] for [context], and in every configuration that passes the
    checks. *)
Theorem url_mode_stops_in_get_batches (E : Collab) (lines : list string) :
  let run :=
    interact_model E (config_of 1 (Some 1%Z) (Some example_url))
                   (initial lines) in
  run = (Raise (NameError "context"),
         mkWorld lines
                 [EvHttpGet example_url;
                  EvGetBatches (requests_get_text E example_url)])
  /\ count is_http_get (snd run) = 1
  /\ count is_get_batches (snd run) = 1
  /\ count is_sess_run (snd run) = 0
  /\ count is_print (snd run) = 0
  /\ count is_input (snd run) = 0
  /\ (forall cfg url w,
         valid_config E cfg = true -> prompt_url cfg = Some url -> url <> "" ->
         exists e,
           interact_model E cfg w
           = (Raise e,
              mkWorld (stdin w)
                      (trace w ++ [EvHttpGet url;
                                   EvGetBatches (requests_get_text E url)]))
           /\ is_unbound_name e = true).
Proof.
  repeat (split; [reflexivity|]).
  intros cfg url w Hv Hu Hne. eexists.
  split; [now apply (interact_model_url E cfg w url)|].
  now destruct (1 <=? _)%Z.
Qed.

(* ===================================================================== *)
(** ** Further properties of the filter *)
(* ===================================================================== *)

Section FilterFacts.
Import PyStr PyStrFacts.

Lemma concat_contains (sep x : string) (l : list string) :
  In x l -> exists a b, String.concat sep l = (a ++ x ++ b)%string.
Proof.
  induction l as [|y l IH]; intros Hin; [contradiction|].
  destruct l as [|z l].
  - destruct Hin as [->|[]]. exists "", "". cbn. now rewrite append_empty_r.
  - change (String.concat sep (y :: z :: l))
      with (y ++ sep ++ String.concat sep (z :: l))%string.
    destruct Hin as [->|Hin].
    + exists "", (sep ++ String.concat sep (z :: l))%string. reflexivity.
    + destruct (IH Hin) as (a & b & ->).
      exists (y ++ sep ++ a)%string, b. now rewrite !append_assoc.
Qed.

Lemma last_char_tail (c : ascii) (s : string) :
  s <> "" -> last_char (String c s) = last_char s.
Proof. destruct s; [congruence | reflexivity]. Qed.

(** A character of [a] that is followed by [blank_line ++ b] starts no match
    unless it already starts one inside [a] or [a] ends in a newline. *)
Lemma prefix_blank_line_inside (c : ascii) (a b : string) :
  String.prefix blank_line (String c a) = false ->
  last_char (String c a) <> Some nl ->
  String.prefix blank_line (String c (a ++ blank_line ++ b)) = false.
Proof.
  intros Hp Hl.
  destruct (String.prefix blank_line (String c (a ++ blank_line ++ b)))
    eqn:Hq; [exfalso | reflexivity].
  apply prefix_iff in Hq. destruct Hq as [r Hr].
  change (blank_line ++ r)%string with (String nl (String nl r)) in Hr.
  injection Hr as -> Hr.
  destruct a as [|d a].
  - now elim Hl.
  - change (String d a ++ blank_line ++ b)%string
      with (String d (a ++ blank_line ++ b)) in Hr.
    injection Hr as -> _.
    assert (Ht : String.prefix blank_line (String nl (String nl a)) = true)
      by (apply prefix_iff; now exists a).
    congruence.
Qed.

(** Splitting distributes over a blank line that follows a text not ending
    in a newline. *)
Lemma split_blank_line_app (b : string) :
  forall n a, String.length a <= n -> last_char a <> Some nl ->
    split (a ++ blank_line ++ b) blank_line
    = split a blank_line ++ split b blank_line.
Proof.
  induction n as [|n IH]; intros a Hlen Hl.
  - destruct a; [|simpl in Hlen; lia].
    apply (split_sep blank_line b). discriminate.
  - destruct a as [|c a].
    { apply (split_sep blank_line b). discriminate. }
    destruct (String.prefix blank_line (String c a)) eqn:Hp.
    + apply prefix_iff in Hp. destruct Hp as [r Hr]. rewrite Hr in *.
      rewrite append_assoc.
      rewrite (split_sep blank_line r), (split_sep blank_line (r ++ _))
        by discriminate.
      cbn [app]. f_equal. apply IH.
      * rewrite length_append in Hlen. cbn in Hlen. lia.
      * destruct r as [|x r]; [now elim Hl|].
        rewrite last_char_append in Hl by discriminate. exact Hl.
    + pose proof (prefix_blank_line_inside c a b Hp Hl) as Hq.
      assert (Hl' : last_char a <> Some nl).
      { destruct a; [discriminate | exact Hl]. }
      assert (Ha : String.length a <= n) by (simpl in Hlen; lia).
      specialize (IH a Ha Hl'). rewrite !split_unfold in IH.
      rewrite !split_unfold.
      change (String c a ++ blank_line ++ b)%string
        with (String c (a ++ blank_line ++ b)).
      rewrite (split_aux_char _ _ _ Hq), (split_aux_char _ _ _ Hp).
      cbn [fst snd app] in IH |- *.
      set (u := (a ++ blank_line ++ b)%string) in *.
      injection IH as H1 H2. now rewrite H1, H2.
Qed.

Lemma find_quotes_blank_line_app (a b : string) :
  last_char a <> Some nl ->
  find_quotes (a ++ blank_line ++ b) = find_quotes a ++ find_quotes b.
Proof.
  intros Hl. rewrite !find_quotes_filter.
  rewrite (split_blank_line_app b (String.length a) a (le_n _) Hl).
  apply filter_app.
Qed.

Lemma find_quotes_single (s : string) :
  occurs blank_line s = false ->
  find_quotes s = if is_quote s then [s] else [].
Proof.
  intros Ho. rewrite find_quotes_filter, (split_whole s blank_line Ho).
  reflexivity.
Qed.

Lemma is_quote_newline_first (s : string) : is_quote (String nl s) = false.
Proof. reflexivity. Qed.

End FilterFacts.

(** X1. Every quote the filter returns is a contiguous piece of its input:
    the input is some text, the quote, and some more text. *)
Theorem find_quotes_pieces_of_input (batch q : string) :
  In q (find_quotes batch) ->
  exists a b, batch = (a ++ q ++ b)%string.
Proof.
  intros Hin. rewrite find_quotes_filter in Hin. apply filter_In in Hin.
  destruct Hin as [Hin _].
  destruct (concat_contains PyStr.blank_line q _ Hin) as (a & b & Hc).
  exists a, b. rewrite <- Hc.
  symmetry. apply (PyStrFacts.join_split batch PyStr.blank_line). discriminate.
Qed.

Lemma find_quotes_pieces_of_input_witness :
  In bye_quote (find_quotes example_batch)
  /\ exists a b, example_batch = (a ++ bye_quote ++ b)%string.
Proof.
  assert (H : In bye_quote (find_quotes example_batch))
    by (right; left; reflexivity).
  split; [exact H | exact (find_quotes_pieces_of_input example_batch bye_quote H)].
Defined.

(** X2. A returned quote starts with the double quote, ends with the letter
    [s] of the attribution, and is at least 14 characters long (the length
    of the suffix): leading or trailing white space makes the filter drop a
    segment. *)
Theorem find_quotes_shape (batch q : string) :
  In q (find_quotes batch) ->
  String.get 0 q = Some PyStr.dquote
  /\ PyStr.last_char q = Some "s"%char
  /\ 14 <= String.length q.
Proof.
  intros Hin. rewrite find_quotes_filter in Hin. apply filter_In in Hin.
  destruct Hin as [_ Hq]. apply is_quote_iff in Hq.
  destruct Hq as [[r Hr] [a Ha]]. split; [|split].
  - now rewrite Hr.
  - rewrite Ha. now rewrite PyStrFacts.last_char_append by discriminate.
  - rewrite Ha, PyStrFacts.length_append. cbn. lia.
Qed.

Lemma find_quotes_shape_witness :
  In hello_quote (find_quotes example_batch)
  /\ String.get 0 hello_quote = Some PyStr.dquote
  /\ PyStr.last_char hello_quote = Some "s"%char
  /\ 14 <= String.length hello_quote.
Proof.
  assert (H : In hello_quote (find_quotes example_batch))
    by (left; reflexivity).
  split; [exact H | exact (find_quotes_shape example_batch hello_quote H)].
Defined.

(** X3. A text without a blank line is one segment: the filter returns the
    whole text if it passes the test and nothing otherwise. *)
Theorem find_quotes_without_blank_line (s : string) :
  PyStr.occurs PyStr.blank_line s = false ->
  find_quotes s = if is_quote s then [s] else [].
Proof. apply find_quotes_single. Qed.

Lemma find_quotes_without_blank_line_witness :
  PyStr.occurs PyStr.blank_line watts_quote = false
  /\ find_quotes watts_quote = if is_quote watts_quote then [watts_quote] else [].
Proof.
  assert (H : PyStr.occurs PyStr.blank_line watts_quote = false) by reflexivity.
  split; [exact H | exact (find_quotes_without_blank_line watts_quote H)].
Defined.

(** X4. Filtering two texts joined by a blank line gives the quotes of the
    first followed by the quotes of the second, provided the first text
    does not end in a newline. *)
Theorem find_quotes_of_joined_texts (a b : string) :
  PyStr.last_char a <> Some PyStr.nl ->
  find_quotes (a ++ PyStr.blank_line ++ b) = find_quotes a ++ find_quotes b.
Proof. apply find_quotes_blank_line_app. Qed.

Lemma find_quotes_of_joined_texts_witness :
  PyStr.last_char hello_quote <> Some PyStr.nl
  /\ find_quotes (hello_quote ++ PyStr.blank_line ++ twain_quote)
     = find_quotes hello_quote ++ find_quotes twain_quote.
Proof.
  assert (H : PyStr.last_char hello_quote <> Some PyStr.nl) by discriminate.
  split; [exact H | exact (find_quotes_of_joined_texts hello_quote twain_quote H)].
Defined.

(** X5. Three newlines in a row hide what follows: the first two are the
    separator, the third stays at the head of the next segment, which then
    fails the test, so a text that follows three newlines and has no blank
    line of its own contributes no quote. *)
Theorem third_newline_hides_next_segment (a q : string) :
  PyStr.last_char a <> Some PyStr.nl ->
  PyStr.occurs PyStr.blank_line (String PyStr.nl q) = false ->
  find_quotes (a ++ PyStr.blank_line ++ String PyStr.nl q) = find_quotes a.
Proof.
  intros Hl Ho. rewrite find_quotes_blank_line_app by exact Hl.
  rewrite (find_quotes_single _ Ho), is_quote_newline_first.
  apply app_nil_r.
Qed.

Lemma third_newline_hides_next_segment_witness :
  PyStr.last_char hello_quote <> Some PyStr.nl
  /\ PyStr.occurs PyStr.blank_line (String PyStr.nl bye_quote) = false
  /\ find_quotes (hello_quote ++ PyStr.blank_line ++ String PyStr.nl bye_quote)
     = find_quotes hello_quote.
Proof.
  assert (H1 : PyStr.last_char hello_quote <> Some PyStr.nl) by discriminate.
  assert (H2 : PyStr.occurs PyStr.blank_line (String PyStr.nl bye_quote) = false)
    by reflexivity.
  split; [exact H1|]. split; [exact H2|].
  exact (third_newline_hides_next_segment hello_quote bye_quote H1 H2).
Defined.

(** X6. The accumulation of lines 77-79 yields the quotes already collected
    followed by the quotes of every batch, batch after batch, in order. *)
Theorem extend_quotes_concatenates (batches quotes : list string) :
  extend_quotes batches quotes = quotes ++ flat_map find_quotes batches.
Proof.
  revert quotes. induction batches as [|batch rest IH]; intros quotes.
  - cbn. now rewrite app_nil_r.
  - cbn [extend_quotes flat_map]. rewrite IH. now rewrite app_assoc.
Qed.

(* ===================================================================== *)
(** ** Further properties of the driver and the batching loop *)
(* ===================================================================== *)

Lemma reprompts_prints (k : nat) (t : string) :
  In (EvPrint t) (reprompts k) -> t = empty_message.
Proof.
  induction k as [|k IH]; cbn [reprompts]; intros Hin; [contradiction|].
  destruct Hin as [[= <-]|[Hin|Hin]]; [reflexivity | discriminate | now apply IH].
Qed.

Lemma count_app (p : event -> bool) (lines lines' : list string)
      (tr evs : list event) :
  count p (mkWorld lines' (tr ++ evs))
  = count p (mkWorld lines tr) + List.length (filter p evs).
Proof. unfold count. cbn [trace]. now rewrite filter_app, length_app. Qed.


(** X8. Reading the prompt either returns a line of the input that is not
    empty, every line before it being empty, or raises [EOFError] with the
    input used up and all of it empty; it never returns the empty string. *)
Theorem read_prompt_returns_first_nonempty_line (w : World) :
  (exists k line rest w',
      read_prompt w = (Return line, w')
      /\ line <> "" /\ stdin w = repeat "" k ++ line :: rest
      /\ stdin w' = rest)
  \/ (exists k w',
         read_prompt w = (Raise EOFError, w')
         /\ stdin w = repeat "" k /\ stdin w' = []).
Proof.
  destruct w as [lines tr].
  destruct (stdin_shape lines) as [(k & line & rest & Hline & ->)|[k ->]].
  - left. exists k, line, rest. eexists.
    split; [now apply read_prompt_line|]. now repeat split.
  - right. exists k. eexists. split; [apply read_prompt_eof|]. now split.
Qed.

(** X9. A batch size of zero ends the run at line 46 with
    [ZeroDivisionError], before anything is read, fetched or printed,
    whatever the rest of the configuration is. *)
Theorem zero_batch_size_divides_by_zero (E : Collab) (cfg : Config)
        (w : World) :
  resolve_batch_size (batch_size cfg) = 0%Z ->
  interact_model E cfg w = (Raise ZeroDivisionError, w).
Proof. intros Hb. now apply interact_model_zero_batch. Qed.

Lemma zero_batch_size_divides_by_zero_witness :
  resolve_batch_size (batch_size (config_of 4 (Some 0%Z) (Some example_url)))
  = 0%Z
  /\ interact_model toy (config_of 4 (Some 0%Z) (Some example_url))
                    (initial ["hello"])
     = (Raise ZeroDivisionError, initial ["hello"]).
Proof.
  assert (H : resolve_batch_size
                (batch_size (config_of 4 (Some 0%Z) (Some example_url)))
              = 0%Z) by reflexivity.
  split; [exact H|].
  exact (zero_batch_size_divides_by_zero
           toy (config_of 4 (Some 0%Z) (Some example_url)) (initial ["hello"]) H).
Defined.

(** X10. With no batch size given the size is 1, which divides every sample
    count: the check of line 46 passes and the run ends neither in
    [AssertionError] nor in [ZeroDivisionError]. *)
Theorem absent_batch_size_passes_the_check (E : Collab) (cfg : Config)
        (w : World) :
  batch_size cfg = None ->
  check_divisible (nsamples cfg) (resolve_batch_size (batch_size cfg)) w
  = (Return tt, w)
  /\ exists e w',
      interact_model E cfg w = (Raise e, w')
      /\ e <> AssertionError /\ e <> ZeroDivisionError.
Proof.
  intros Hb. split.
  - rewrite Hb. unfold check_divisible, bind, py_mod. cbn.
    now rewrite Z.mod_1_r.
  - destruct (interact_model_path E cfg w) as (e & w' & Hr & Hp).
    exists e, w'. split; [exact Hr|].
    destruct Hp as [H0|_ Hm| | | |]; rewrite ?Hb in *; cbn in *;
      try (split; discriminate); try discriminate.
    + rewrite Z.mod_1_r in Hm. congruence.
    + split; now destruct (1 <=? _)%Z.
Qed.

Lemma absent_batch_size_passes_the_check_witness :
  batch_size (config_of 7 None None) = None
  /\ check_divisible 7 1 (initial []) = (Return tt, initial []).
Proof.
  assert (H : batch_size (config_of 7 None None) = None) by reflexivity.
  split; [exact H|].
  exact (proj1 (absent_batch_size_passes_the_check
                  toy (config_of 7 None None) (initial []) H)).
Defined.

(** X11. A configuration that fails the checks of lines 44-56 has no effect
    at all: the run ends in [ZeroDivisionError], [AssertionError] or the
    [ValueError] of line 56 with the world as it was. *)
Theorem invalid_config_has_no_effect (E : Collab) (cfg : Config) (w : World) :
  valid_config E cfg = false ->
  exists e,
    interact_model E cfg w = (Raise e, w)
    /\ (e = ZeroDivisionError \/ e = AssertionError
        \/ e = ValueError "Can't get samples longer than window size: %s"
                          (hparams_n_ctx E (model_name cfg))).
Proof.
  intros Hv.
  destruct (interact_model_path E cfg w) as (e & w' & Hr & Hp).
  destruct Hp; try congruence; (eexists; split; [exact Hr | auto]).
Qed.

Lemma invalid_config_has_no_effect_witness :
  valid_config toy (config_of 3 (Some 2%Z) (Some example_url)) = false
  /\ exists e,
      interact_model toy (config_of 3 (Some 2%Z) (Some example_url))
                     (initial ["hello"])
      = (Raise e, initial ["hello"])
      /\ (e = ZeroDivisionError \/ e = AssertionError
          \/ e = ValueError "Can't get samples longer than window size: %s"
                            1024).
Proof.
  assert (H : valid_config toy (config_of 3 (Some 2%Z) (Some example_url))
              = false) by reflexivity.
  split; [exact H|].
  exact (invalid_config_has_no_effect
           toy (config_of 3 (Some 2%Z) (Some example_url)) (initial ["hello"]) H).
Defined.

(** X12. With a truthy prompt URL the run never touches the console: no
    line of input is taken, no prompt is shown and nothing is printed, and
    at most one fetch is made. *)
Theorem url_mode_leaves_the_console_alone (E : Collab) (cfg : Config)
        (w : World) :
  truthy (prompt_url cfg) = true ->
  exists e w',
    interact_model E cfg w = (Raise e, w')
    /\ stdin w' = stdin w
    /\ count is_input w' = count is_input w
    /\ count is_print w' = count is_print w
    /\ count is_http_get w' <= S (count is_http_get w).
Proof.
  intros Ht.
  destruct (interact_model_path E cfg w) as (e & w' & Hr & Hp).
  exists e, w'. split; [exact Hr|].
  destruct Hp; try congruence; try (repeat split; lia).
  repeat split; rewrite (count_app _ (stdin w)); cbn; destruct w; cbn; lia.
Qed.

Lemma url_mode_leaves_the_console_alone_witness :
  truthy (prompt_url (config_of 1 (Some 1%Z) (Some example_url))) = true
  /\ exists e w',
      interact_model toy (config_of 1 (Some 1%Z) (Some example_url))
                     (initial ["hello"])
      = (Raise e, w')
      /\ stdin w' = ["hello"]
      /\ count is_input w' = 0
      /\ count is_print w' = 0
      /\ count is_http_get w' <= 1.
Proof.
  assert (H : truthy (prompt_url (config_of 1 (Some 1%Z) (Some example_url)))
              = true) by reflexivity.
  split; [exact H|].
  exact (url_mode_leaves_the_console_alone
           toy (config_of 1 (Some 1%Z) (Some example_url)) (initial ["hello"]) H).
Defined.

(** X13. With no prompt URL, or with the empty string as URL, the run never
    fetches anything and never enters [get_batches]. *)
Theorem interactive_mode_never_fetches (E : Collab) (cfg : Config)
        (w : World) :
  truthy (prompt_url cfg) = false ->
  exists e w',
    interact_model E cfg w = (Raise e, w')
    /\ count is_http_get w' = count is_http_get w
    /\ count is_get_batches w' = count is_get_batches w.
Proof.
  intros Ht.
  destruct (interact_model_path E cfg w) as (e & w' & Hr & Hp).
  exists e, w'. split; [exact Hr|].
  destruct Hp as [| | |url Hv Hu Hne| |]; try (split; reflexivity).
  - exfalso. rewrite Hu in Ht. cbn in Ht.
    apply negb_false_iff, String.eqb_eq in Ht. contradiction.
  - split; rewrite (count_app _ (stdin w)); cbn [filter is_http_get is_get_batches];
      rewrite filter_reprompts by reflexivity; destruct w; cbn; lia.
  - split; rewrite (count_app _ (stdin w)); cbn [filter is_http_get is_get_batches];
      rewrite filter_reprompts by reflexivity; destruct w; cbn; lia.
Qed.

Lemma interactive_mode_never_fetches_witness :
  truthy (prompt_url (config_of 1 (Some 1%Z) (Some ""))) = false
  /\ exists e w',
      interact_model toy (config_of 1 (Some 1%Z) (Some "")) (initial ["hello"])
      = (Raise e, w')
      /\ count is_http_get w' = 0
      /\ count is_get_batches w' = 0.
Proof.
  assert (H : truthy (prompt_url (config_of 1 (Some 1%Z) (Some ""))) = false)
    by reflexivity.
  split; [exact H|].
  exact (interactive_mode_never_fetches
           toy (config_of 1 (Some 1%Z) (Some "")) (initial ["hello"]) H).
Defined.

(** X14. No run ever prints a quote: the trace only grows, and the one text
    that is ever printed is the message about the empty prompt. *)
Theorem only_the_empty_prompt_message_is_printed (E : Collab) (cfg : Config)
        (w : World) :
  exists e w' evs,
    interact_model E cfg w = (Raise e, w')
    /\ trace w' = trace w ++ evs
    /\ forall t, In (EvPrint t) evs -> t = empty_message.
Proof.
  destruct (interact_model_path E cfg w) as (e & w' & Hr & Hp).
  exists e, w'.
  destruct Hp.
  - exists []. rewrite app_nil_r. repeat split; [exact Hr | intros t []].
  - exists []. rewrite app_nil_r. repeat split; [exact Hr | intros t []].
  - exists []. rewrite app_nil_r. repeat split; [exact Hr | intros t []].
  - eexists. repeat split; [exact Hr|].
    intros t [Hin|[Hin|[]]]; discriminate.
  - eexists. repeat split; [exact Hr|].
    intros t [Hin|Hin]; [discriminate | now apply (reprompts_prints k)].
  - eexists. repeat split; [exact Hr|].
    intros t [Hin|Hin]; [discriminate | now apply (reprompts_prints k)].
Qed.

(** X15. The length handed to the sampler fits a non-negative context
    window: whatever [resolve_length] returns is at most [n_ctx], and the
    world is untouched. *)
Theorem effective_length_fits_window (length : option Z) (n_ctx l : Z)
        (w w' : World) :
  (0 <= n_ctx)%Z ->
  resolve_length length n_ctx w = (Return l, w') ->
  (l <= n_ctx)%Z /\ w' = w.
Proof.
  intros Hn. unfold resolve_length. destruct length as [l0|].
  - destruct (l0 >? n_ctx)%Z eqn:Hgt; [discriminate|].
    intros [= <- <-]. split; [|reflexivity].
    rewrite Z.gtb_ltb in Hgt. apply Z.ltb_ge in Hgt. exact Hgt.
  - intros [= <- <-]. split; [|reflexivity].
    apply Z.div_le_upper_bound; lia.
Qed.

Lemma effective_length_fits_window_witness :
  (0 <= 1024)%Z
  /\ resolve_length None 1024 (initial []) = (Return 512%Z, initial [])
  /\ (512 <= 1024)%Z /\ initial [] = initial [].
Proof.
  assert (H1 : (0 <= 1024)%Z) by discriminate.
  assert (H2 : resolve_length None 1024 (initial []) = (Return 512%Z, initial []))
    by reflexivity.
  split; [exact H1|]. split; [exact H2|].
  exact (effective_length_fits_window None 1024 512 (initial []) (initial [])
                                      H1 H2).
Defined.

(** X16. When the sample count and a non-zero batch size give no round
    (for instance a sample count of zero), [get_batches] raises
    [UnboundLocalError] for [batches] at line 109 without running the
    sampler, in whatever namespace it runs: [batches] is assigned inside
    the loop only. *)
Theorem no_round_leaves_batches_unbound (E : Collab) (globals : list string)
        (output : SampleOp) (prompt : string) (n b : Z) (w : World) :
  b <> 0%Z -> (n / b <= 0)%Z ->
  get_batches_in E globals output prompt n b w
  = (Raise (UnboundLocalError "batches"),
     mkWorld (stdin w) (trace w ++ [EvGetBatches prompt])).
Proof.
  intros Hb Hr. unfold get_batches_in, bind, emit, py_floordiv.
  apply Z.eqb_neq in Hb. rewrite Hb. unfold ret at 1.
  replace (Z.to_nat (n / b)) with 0 by lia. reflexivity.
Qed.

Lemma no_round_leaves_batches_unbound_witness :
  (2 <> 0)%Z /\ (0 / 2 <= 0)%Z
  /\ get_batches_in toy bound_globals (mkSampleOp 512 2 1%Q 0 0%Q None)
                    "hi" 0 2 (initial [])
     = (Raise (UnboundLocalError "batches"), mkWorld [] [EvGetBatches "hi"]).
Proof.
  assert (H1 : (2 <> 0)%Z) by discriminate.
  assert (H2 : (0 / 2 <= 0)%Z) by discriminate.
  split; [exact H1|]. split; [exact H2|].
  exact (no_round_leaves_batches_unbound
           toy bound_globals (mkSampleOp 512 2 1%Q 0 0%Q None) "hi" 0 2
           (initial []) H1 H2).
Defined.

(** X17. In a namespace that binds [context], with a sampler that returns
    [batch_size] rows, a call with at least one round runs the sampler once
    per round on [batch_size] copies of the encoded prompt and returns the
    [batch_size] texts decoded from the last invocation; the texts of the
    earlier rounds are not in the result. *)
Theorem bound_context_returns_last_round (E : Collab) (globals : list string)
        (output : SampleOp) (prompt : string) (n b : Z) (w : World) :
  existsb (String.eqb "context") globals = true ->
  (forall k feed, List.length (sess_run E output k feed) = Z.to_nat b) ->
  b <> 0%Z -> (1 <= n / b)%Z ->
  get_batches_in E globals output prompt n b w
  = (Return (round_texts E output prompt b
                         (count is_sess_run w + (Z.to_nat (n / b) - 1))),
     mkWorld (stdin w)
             (trace w ++ EvGetBatches prompt
                :: repeat (EvSessRun (batch_feed E prompt b))
                          (Z.to_nat (n / b))))
  /\ List.length (round_texts E output prompt b
                    (count is_sess_run w + (Z.to_nat (n / b) - 1)))
     = Z.to_nat b.
Proof.
  intros Hc Hrows Hb Hr. split.
  - now apply get_batches_in_last_round.
  - now apply get_batches_in_last_round_length.
Qed.

Lemma bound_context_returns_last_round_witness :
  existsb (String.eqb "context") bound_globals = true
  /\ (forall k feed,
         List.length (sess_run round_tagged (mkSampleOp 512 2 1%Q 0 0%Q None)
                               k feed) = Z.to_nat 2)
  /\ (2 <> 0)%Z /\ (1 <= 4 / 2)%Z
  /\ get_batches_in round_tagged bound_globals
                    (mkSampleOp 512 2 1%Q 0 0%Q None) "hi" 4 2 (initial [])
     = (Return ["second round"; "second round"],
        mkWorld [] [EvGetBatches "hi";
                    EvSessRun [[1%Z; 2%Z]; [1%Z; 2%Z]];
                    EvSessRun [[1%Z; 2%Z]; [1%Z; 2%Z]]]).
Proof.
  assert (H1 : existsb (String.eqb "context") bound_globals = true)
    by reflexivity.
  assert (H2 : forall k feed,
             List.length (sess_run round_tagged
                                   (mkSampleOp 512 2 1%Q 0 0%Q None) k feed)
             = Z.to_nat 2) by (intros; reflexivity).
  assert (H3 : (2 <> 0)%Z) by discriminate.
  assert (H4 : (1 <= 4 / 2)%Z) by discriminate.
  split; [exact H1|]. split; [exact H2|]. split; [exact H3|]. split; [exact H4|].
  exact (proj1 (bound_context_returns_last_round
                  round_tagged bound_globals (mkSampleOp 512 2 1%Q 0 0%Q None)
                  "hi" 4 2 (initial []) H1 H2 H3 H4)).
Defined.
